(** * Neural Reflexion Agent: scorer, iteration controller and search executor

    A shallow embedding of [reflexion_agent.py], [ui_app.py] and
    [execute_tools.py].

    Conventions of the embedding.
    - A Python [str] is a [string]; each character is a code point below 256.
    - A Python [float] is an exact rational [Q].  Every number the scorers
      produce is a multiple of 0.1 between -10 and 100, and their inputs are
      small integers and the literal 0.1, so the binary64 error of the
      intermediate sums is many orders of magnitude below the 0.005 that
      [round(score, 2)] resolves: [round] returns the double nearest to the
      exact decimal, and comparing two such doubles agrees with comparing
      the rationals.
    - [None] is [None]; a value that the code only tests for truthiness and
      then measures with [len] is a list (an absent list and an empty list
      take the same branch).
    - The module-level set [SEEN_URLS] is a [gset string] threaded through
      the search executor; module-level and closure-held best scores are
      threaded through the controllers.
    - The language model, the search tool, [repr] of an exception and the
      graph engine are collaborators outside the repository: they are
      Section variables. *)

From Stdlib Require Import Ascii String DecimalString QArith Qround Qminmax Qabs.
From stdpp Require Import gmap strings list.

Local Open Scope Q_scope.

(** ** Python text primitives *)

Module PyStr.

(** [str.isspace] on one character, for code points below 256. *)
Definition isspace (c : ascii) : bool :=
  let n := nat_of_ascii c in
  ((9 <=? n) && (n <=? 13) || (28 <=? n) && (n <=? 32)
   || (n =? 133) || (n =? 160))%nat.

(** [\d] of a [str] pattern, for code points below 256. *)
Definition isdigit (c : ascii) : bool :=
  let n := nat_of_ascii c in ((48 <=? n) && (n <=? 57))%nat.

(** [c in chars] for a character. *)
Fixpoint mem (c : ascii) (chars : string) : bool :=
  match chars with
  | EmptyString => false
  | String d rest => if Ascii.eqb c d then true else mem c rest
  end.

Fixpoint lstrip_by (p : ascii -> bool) (s : string) : string :=
  match s with
  | EmptyString => EmptyString
  | String c rest => if p c then lstrip_by p rest else s
  end.

Fixpoint rstrip_by (p : ascii -> bool) (s : string) : string :=
  match s with
  | EmptyString => EmptyString
  | String c rest =>
      match rstrip_by p rest with
      | EmptyString => if p c then EmptyString else String c EmptyString
      | kept => String c kept
      end
  end.

(** [s.strip()] *)
Definition strip (s : string) : string :=
  rstrip_by isspace (lstrip_by isspace s).

(** [s.strip(chars)] *)
Definition strip_chars (chars s : string) : string :=
  rstrip_by (fun c => mem c chars) (lstrip_by (fun c => mem c chars) s).

(** [s.rstrip(chars)] *)
Definition rstrip_chars (chars s : string) : string :=
  rstrip_by (fun c => mem c chars) s.

(** [s.split()]: the maximal runs of non-space characters.  [word] is the
    run being read, if any. *)
Fixpoint split_go (s : string) (word : option string) : list string :=
  match s with
  | EmptyString => match word with Some w => [w] | None => [] end
  | String c rest =>
      if isspace c then
        match word with
        | Some w => w :: split_go rest None
        | None => split_go rest None
        end
      else split_go rest (Some (default EmptyString word +:+ String c EmptyString))
  end.

Definition split (s : string) : list string := split_go s None.

(** [needle in hay] *)
Fixpoint contains (needle hay : string) : bool :=
  if String.prefix needle hay then true
  else match hay with
       | EmptyString => false
       | String _ rest => contains needle rest
       end.

(** Truthiness of an optional text: [None] and the empty text are false. *)
Definition truthy (s : option string) : bool :=
  match s with
  | None | Some EmptyString => false
  | Some _ => true
  end.

(** *** [re.findall(r"\[\d+\]", s)] *)

(** The longest prefix of digits, and what follows it. *)
Fixpoint span_digits (s : string) : string * string :=
  match s with
  | String c rest =>
      if isdigit c then
        let '(ds, tl) := span_digits rest in (String c ds, tl)
      else (EmptyString, s)
  | EmptyString => (EmptyString, EmptyString)
  end.

(** A match of the pattern anchored at the head of [s]: the matched text
    and the rest.  [\d+] is greedy and the closing bracket is not a digit, so no
    backtracking can change the outcome. *)
Definition match_citation (s : string) : option (string * string) :=
  match s with
  | String "["%char t =>
      match span_digits t with
      | (String d ds, String "]"%char r) =>
          Some (String "["%char (String d ds +:+ "]"), r)
      | _ => None
      end
  | _ => None
  end.

(** Leftmost non-overlapping matches; the scan resumes after a match and
    one character further after a failure. *)
Fixpoint findall_go (fuel : nat) (s : string) : list string :=
  match fuel with
  | O => []
  | S fuel' =>
      match s with
      | EmptyString => []
      | String _ rest =>
          match match_citation s with
          | Some (m, r) => m :: findall_go fuel' r
          | None => findall_go fuel' rest
          end
      end
  end.

Definition findall_citations (s : string) : list string :=
  findall_go (String.length s) s.

(** Every character of [s] satisfies [p]. *)
Fixpoint all_in (p : ascii -> bool) (s : string) : bool :=
  match s with
  | EmptyString => true
  | String c rest => p c && all_in p rest
  end.

(** The line feed, as a text. *)
Definition nl : string := String "010"%char EmptyString.

(** [sep.join(parts)] *)
Fixpoint join (sep : string) (parts : list string) : string :=
  match parts with
  | [] => EmptyString
  | [x] => x
  | x :: rest => x +:+ sep +:+ join sep rest
  end.

(** [s.encode("utf-8")], for code points below 256: one byte below 128,
    two bytes from 128 on. *)
Definition utf8_char (c : ascii) : list Byte.byte :=
  let n := nat_of_ascii c in
  if (n <? 128)%nat then [byte_of_ascii c]
  else [byte_of_ascii (ascii_of_nat (192 + n / 64));
        byte_of_ascii (ascii_of_nat (128 + n mod 64))].

Fixpoint utf8 (s : string) : list Byte.byte :=
  match s with
  | EmptyString => []
  | String c rest => utf8_char c ++ utf8 rest
  end.

End PyStr.

(** ** Python numbers *)

Module PyNum.

(** Nearest integer, ties to the even one. *)
Definition round_half_even (q : Q) : Z :=
  let f := Qfloor q in
  match Qcompare (q - inject_Z f) (1 # 2) with
  | Lt => f
  | Gt => (f + 1)%Z
  | Eq => if Z.even f then f else (f + 1)%Z
  end.

(** [round(q, 2)], in lowest terms. *)
Definition round2 (q : Q) : Q :=
  Qred (inject_Z (round_half_even (q * 100)) / 100).

(** [len(l)] as a number. *)
Definition len {A} (l : list A) : Q := inject_Z (Z.of_nat (length l)).

End PyNum.

(** ** Data model *)

(** A JSON scalar as it can stand in a [search_queries] list (numbers
    with a fraction, lists and objects are left out). *)
Inductive pyval :=
| PStr (s : string)
| PInt (n : Z)
| PBool (b : bool)
| PNone.

(** [str(v)] *)
Definition py_str (v : pyval) : string :=
  match v with
  | PStr s => s
  | PInt n => NilZero.string_of_int (Z.to_int n)
  | PBool true => "True"
  | PBool false => "False"
  | PNone => "None"
  end.

(** An insertion-ordered [dict] with text keys: assigning to a key that is
    present replaces its value in place, a new key goes last. *)
Module PyDict.

Definition t (V : Type) : Type := list (string * V).

Fixpoint set {V} (k : string) (v : V) (d : t V) : t V :=
  match d with
  | [] => [(k, v)]
  | (k', v') :: rest =>
      if String.eqb k k' then (k, v) :: rest else (k', v') :: set k v rest
  end.

Fixpoint get {V} (k : string) (d : t V) : option V :=
  match d with
  | [] => None
  | (k', v') :: rest => if String.eqb k k' then Some v' else get k rest
  end.

Definition keys {V} (d : t V) : list string := map fst d.

End PyDict.

(** The payload of a structured answer: [tool_call["args"]]. *)
Record tool_args := {
  answer : option string;
  references : option (list string);
  search_queries : option (list pyval);
}.

(** [{}], what [tc.get("args") or {}] falls back to. *)
Definition no_args : tool_args :=
  {| answer := None; references := None; search_queries := None |}.

Record tool_call := {
  name : option string;
  id : option string;
  args : option tool_args;
}.

(** One record returned by the search tool. *)
Record search_item := {
  item_title : option string;
  item_url : option string;
  item_content : option string;
  item_snippet : option string;
}.

(** One record handed back to the model. *)
Record evidence := {
  title : option string;
  url : string;
  snippet : option string;
}.

(** The value stored under a query: the top results, or [{"error": ...}]. *)
Inductive query_value :=
| Results (compact : list evidence)
| ErrorRecord (description : string).

(** A [ToolMessage] holds [json.dumps] of the mapping; [json.loads] gives
    the mapping back with its keys in order.  [None] is a content that is
    not the JSON text of a mapping. *)
Inductive message :=
| HumanMessage (content : string)
| AIMessage (tool_calls : list tool_call)
| ToolMessage (content : option (PyDict.t query_value)) (tool_call_id : option string).

(** [getattr(msg, "tool_calls", None)]; an absent attribute and an empty
    list are both falsy. *)
Definition msg_tool_calls (msg : message) : list tool_call :=
  match msg with
  | AIMessage tcs => tcs
  | _ => []
  end.

(** [isinstance(msg, ToolMessage)] *)
Definition is_tool_message (msg : message) : bool :=
  match msg with
  | ToolMessage _ _ => true
  | _ => false
  end.

(** [sum(isinstance(item, ToolMessage) for item in state)] *)
Definition count_tool_visits (state : list message) : nat :=
  length (List.filter is_tool_message state).

(** [tc.get("name") in names] *)
Definition name_in (names : list string) (tc : tool_call) : bool :=
  match name tc with
  | Some n => existsb (String.eqb n) names
  | None => false
  end.

(** Where the controller sends the graph next. *)
Inductive route := END | EXECUTE_TOOLS.

Definition scorer : Type := option string -> list string -> list string -> Q.

(** ** [reflexion_agent.py] *)

Module ReflexionAgent.

Definition MAX_ITERATIONS : nat := 2.

(** [evaluate_answer] as defined at lines 32-54. *)
Definition evaluate_answer_l32 : scorer := fun ans refs queries_used =>
  let score := 0 in
  if negb (PyStr.truthy ans) then score else
  let text := default EmptyString ans in
  let words := PyNum.len (PyStr.split text) in
  let score := score + Qmax 0 (30 - Qabs (words - 250) * 0.1) in
  let score :=
    match refs with
    | [] => score
    | _ => score + Qmin 20 (5 * PyNum.len refs)
    end in
  let cites := PyNum.len (PyStr.findall_citations text) in
  let score := score + Qmin 20 (cites * 4) in
  let score :=
    match queries_used with
    | [] => score
    | _ => score + Qmin 30 (10 * Qmin 3 (PyNum.len queries_used))
    end in
  PyNum.round2 score.

(** [evaluate_answer] as defined again at lines 141-147.  The second
    [def] rebinds the module's name. *)
Definition evaluate_answer_l141 : scorer := fun ans refs queries_used =>
  let score := 0 in
  let score :=
    match refs with
    | [] => score
    | _ =>
        if negb (existsb (fun r => PyStr.contains "mckinsey.com" r
                                   || PyStr.contains "mailchimp.com" r) refs)
        then score - 10
        else score
    end in
  PyNum.round2 score.

Definition default_names : list string := ["ReviseAnswer"; "AnswerQuestion"]%string.

(** The loop over [reversed(messages)] of [extract_last_tool_answer]. *)
Fixpoint scan_tool_answer (names : list string) (newest_first : list message)
  : option string * list string :=
  match newest_first with
  | [] => (None, [])
  | msg :: older =>
      match find (name_in names) (rev (msg_tool_calls msg)) with
      | Some tc =>
          let a := default no_args (args tc) in
          (answer a, default [] (references a))
      | None => scan_tool_answer names older
      end
  end.

Definition extract_last_tool_answer (messages : list message) (names : list string)
  : option string * list string :=
  scan_tool_answer names (rev messages).

(** The loop over [reversed(messages)] of
    [extract_latest_queries_from_tools]. *)
Fixpoint scan_tool_queries (newest_first : list message) : list string :=
  match newest_first with
  | [] => []
  | ToolMessage (Some data) _ :: _ => PyDict.keys data
  | ToolMessage None _ :: _ => []
  | _ :: older => scan_tool_queries older
  end.

Definition extract_latest_queries_from_tools (messages : list message) : list string :=
  scan_tool_queries (rev messages).

(** The module globals that [event_loop] reads when it is called: the
    function the name [evaluate_answer] is bound to at that moment, and
    [_best_score]. *)
Record globals := {
  evaluate_answer : scorer;
  _best_score : Q;
}.

Definition event_loop (g : globals) (state : list message) : route * globals :=
  let count_tool_visits := count_tool_visits state in
  if (MAX_ITERATIONS <? count_tool_visits)%nat then (END, g) else
  let '(ans, refs) := extract_last_tool_answer state default_names in
  let queries_used := extract_latest_queries_from_tools state in
  if PyStr.truthy ans then
    let cur := evaluate_answer g ans refs queries_used in
    if Qle_bool cur (_best_score g) then (END, g)
    else (EXECUTE_TOOLS, {| evaluate_answer := evaluate_answer g; _best_score := cur |})
  else (EXECUTE_TOOLS, g).

(** The globals when line 121 invokes the graph: only the first [def] has
    run, and [_best_score] is -1.0. *)
Definition globals_at_invoke : globals :=
  {| evaluate_answer := evaluate_answer_l32; _best_score := -1 |}.

(** Line 141, executed after the invocation has returned. *)
Definition rebind_l141 (g : globals) : globals :=
  {| evaluate_answer := evaluate_answer_l141; _best_score := _best_score g |}.

(** The globals once the module body has run, when the run of line 121
    scored no answer and left [_best_score] at -1.0. *)
Definition globals_loaded : globals := rebind_l141 globals_at_invoke.

(** [print_final]: the arguments of its [print] calls, in order. *)
Definition print_final (messages : list message) : list string :=
  let '(ans, refs) := extract_last_tool_answer messages default_names in
  if PyStr.truthy ans then
    let text := default EmptyString ans in
    [PyStr.nl +:+ "=== Final Answer ===" +:+ PyStr.nl; text]
    ++ (if negb (PyStr.contains "References" text)
           && match refs with [] => false | _ => true end
        then (PyStr.nl +:+ "References:") :: refs
        else [])
  else [].

End ReflexionAgent.

(** ** [ui_app.py] *)

Module UiApp.

Definition evaluate_answer : scorer := fun ans refs queries_used =>
  let score := 0 in
  if negb (PyStr.truthy ans) then score else
  let text := default EmptyString ans in
  let words := PyNum.len (PyStr.split text) in
  let score := score + Qmax 0 (30 - Qabs (words - 250) * 0.1) in
  let score :=
    match refs with
    | [] => score
    | _ => score + Qmin 20 (5 * PyNum.len refs)
    end in
  let cites := PyNum.len (PyStr.findall_citations text) in
  let score := score + Qmin 20 (cites * 4) in
  let score :=
    match queries_used with
    | [] => score
    | _ => score + Qmin 30 (10 * Qmin 3 (PyNum.len queries_used))
    end in
  PyNum.round2 score.

Definition default_names : list string := ["ReviseAnswer"; "AnswerQuestion"]%string.

Fixpoint scan_tool_answer (names : list string) (newest_first : list message)
  : option string * list string :=
  match newest_first with
  | [] => (None, [])
  | msg :: older =>
      match find (name_in names) (rev (msg_tool_calls msg)) with
      | Some tc =>
          let a := default no_args (args tc) in
          (answer a, default [] (references a))
      | None => scan_tool_answer names older
      end
  end.

Definition extract_last_tool_answer (messages : list message) (names : list string)
  : option string * list string :=
  scan_tool_answer names (rev messages).

Fixpoint scan_tool_queries (newest_first : list message) : list string :=
  match newest_first with
  | [] => []
  | ToolMessage (Some data) _ :: _ => PyDict.keys data
  | ToolMessage None _ :: _ => []
  | _ :: older => scan_tool_queries older
  end.

Definition extract_latest_queries_from_tools (messages : list message) : list string :=
  scan_tool_queries (rev messages).

(** [best = {"val": -1.0}], made anew by each [build_graph]. *)
Definition best_init : Q := -1.

(** The closure [event_loop] of [build_graph(max_iterations)]; [best] is
    [best["val"]]. *)
Definition event_loop (max_iterations : nat) (best : Q) (state : list message)
  : route * Q :=
  let count_tool_visits := count_tool_visits state in
  if (max_iterations <? count_tool_visits)%nat then (END, best) else
  let '(ans, refs) := extract_last_tool_answer state default_names in
  let queries_used := extract_latest_queries_from_tools state in
  if PyStr.truthy ans then
    let cur := evaluate_answer ans refs queries_used in
    if Qle_bool cur best then (END, best)
    else (EXECUTE_TOOLS, cur)
  else (EXECUTE_TOOLS, best).

(** The list [lines] that [export_markdown] builds. *)
Definition markdown_lines (prompt answer : string) (refs : list string) : list string :=
  let lines :=
    ["# Final Answer" +:+ PyStr.nl +:+ PyStr.nl +:+ "**Prompt:** " +:+ prompt
       +:+ PyStr.nl +:+ PyStr.nl +:+ answer +:+ PyStr.nl] in
  if match refs with [] => false | _ => true end
     && negb (PyStr.contains "References" answer)
  then (lines ++ [PyStr.nl +:+ "## References" +:+ PyStr.nl])
         ++ map (fun r => "- " +:+ r) refs ++ [PyStr.nl]
  else lines.

Definition export_markdown (prompt answer : string) (refs : list string)
  : list Byte.byte :=
  PyStr.utf8 (PyStr.join PyStr.nl (markdown_lines prompt answer refs)).

End UiApp.

(** ** [execute_tools.py] *)

Module ExecuteTools.

(** The double-quote character, as a text. *)
Definition dquote : string := String "034"%char EmptyString.

Definition _clean_query (q : pyval) : string :=
  let q := py_str q in
  PyStr.strip_chars "'" (PyStr.strip_chars dquote (PyStr.strip_chars "," (PyStr.strip q))).

(** Lines 53-55, the test-and-register step on one URL: whether the URL
    is kept, and [SEEN_URLS] afterwards. *)
Definition accept (url : string) (seen : gset string) : bool * gset string :=
  if String.eqb url EmptyString || bool_decide (url ∈ seen) then (false, seen)
  else (true, {[url]} ∪ seen).

(** The record appended to [compact] for a kept item. *)
Definition project (item : search_item) (url : string) : evidence :=
  {| title := item_title item;
     url := url;
     snippet := if PyStr.truthy (item_content item) then item_content item
                else item_snippet item |}.

(** The stripped [item.get("url")], the empty text when it is absent. *)
Definition url_of (item : search_item) : string :=
  PyStr.strip (default EmptyString (item_url item)).

(** The loop over [raw] at lines 51-62. *)
Fixpoint item_loop (raw : list search_item) (compact : list evidence)
    (seen : gset string) : list evidence * gset string :=
  match raw with
  | [] => (compact, seen)
  | item :: rest =>
      let url := url_of item in
      match accept url seen with
      | (false, seen) => item_loop rest compact seen
      | (true, seen) => item_loop rest (compact ++ [project item url]) seen
      end
  end.

Section Executor.

(** Exceptions, their [repr], and [tavily_tool.invoke({"query": q})],
    which raises or returns a list of records (or nothing). *)
Context {E : Type}.
Variable repr : E -> string.
Variable tavily_invoke : string -> E + option (list search_item).

(** The exception that the [ToolMessage] constructor raises when it is
    given no [tool_call_id]. *)
Variable validation_error : E.

(** A computation over [SEEN_URLS] that returns ([inr]) or raises
    ([inl]); what was written to the set before a raise stays. *)
Definition M (A : Type) : Type := gset string -> (E + A) * gset string.

#[local] Instance M_ret : MRet M := fun A a seen => (inr a, seen).

#[local] Instance M_bind : MBind M := fun A B f m seen =>
  match m seen with
  | (inr a, seen') => f a seen'
  | (inl e, seen') => (inl e, seen')
  end.

(** [try: body  except Exception as e: handler(e)] *)
Definition try_except {A} (body : M A) (handler : E -> M A) : M A :=
  fun seen =>
    match body seen with
    | (inl e, seen') => handler e seen'
    | ok => ok
    end.

Definition invoke (query : string) : M (option (list search_item)) :=
  fun seen => (tavily_invoke query, seen).

(** The item loop as a computation; it does not raise. *)
Definition compact_of (raw : list search_item) : M (list evidence) :=
  fun seen => let '(compact, seen') := item_loop raw [] seen in (inr compact, seen').

(** Lines 47-65: the value stored under one cleaned query. *)
Definition search_query (query : string) : M query_value :=
  try_except
    (raw ← invoke query;
     compact ← compact_of (default [] raw);
     mret (Results (take 3 compact)))
    (fun e => mret (ErrorRecord (repr e))).

(** The loop over [search_queries] at lines 43-65. *)
Fixpoint query_loop (search_queries : list pyval)
    (query_results : PyDict.t query_value) : M (PyDict.t query_value) :=
  match search_queries with
  | [] => mret query_results
  | query :: rest =>
      let query := _clean_query query in
      if String.eqb query EmptyString then query_loop rest query_results
      else
        v ← search_query query;
        query_loop rest (PyDict.set query v query_results)
  end.

Definition recognized : list string := ["AnswerQuestion"; "ReviseAnswer"]%string.

(** [ToolMessage(content=json.dumps(query_results), tool_call_id=call_id)]
    at lines 67-72, outside the [try]: the constructor wants a text as
    identifier and raises when [tool_call.get("id")] gave [None]. *)
Definition new_tool_message (query_results : PyDict.t query_value)
    (call_id : option string) : M message :=
  fun seen =>
    match call_id with
    | Some _ => (inr (ToolMessage (Some query_results) call_id), seen)
    | None => (inl validation_error, seen)
    end.

(** The loop over [last.tool_calls] at lines 33-72. *)
Fixpoint tool_call_loop (tool_calls : list tool_call)
    (tool_messages : list message) : M (list message) :=
  match tool_calls with
  | [] => mret tool_messages
  | tool_call :: rest =>
      if negb (name_in recognized tool_call) then tool_call_loop rest tool_messages
      else
        let call_id := id tool_call in
        let a := default no_args (args tool_call) in
        let search_queries := default [] (search_queries a) in
        query_results ← query_loop search_queries [];
        tool_message ← new_tool_message query_results call_id;
        tool_call_loop rest (tool_messages ++ [tool_message])
  end.

Definition execute_tools (state : list message) : M (list message) :=
  match last state with
  | Some (AIMessage (tc :: tcs)) => tool_call_loop (tc :: tcs) []
  | _ => mret []
  end.

(** What a search of the cleaned query [k] stores, in a batch that
    began with the seen set [seen0]: the error record of the failure,
    or the first three records kept against some later seen set. *)
Definition stored (seen0 : gset string) (k : string) (v : query_value) : Prop :=
  match tavily_invoke k with
  | inl e => v = ErrorRecord (repr e)
  | inr raw =>
      exists seen, seen0 ⊆ seen
        /\ v = Results (take 3 (item_loop (default [] raw) [] seen).1)
  end.

(** Every entry of a mapping was stored by a search of its key, and
    what it shows is in the seen set. *)
Definition well_stored (seen0 seen : gset string) (d : PyDict.t query_value) : Prop :=
  forall k v, (k, v) ∈ d ->
    k <> EmptyString /\ stored seen0 k v
    /\ forall l r, v = Results l -> r ∈ l -> url r ∈ seen.

(** The search tool returned, for the query [k], a record whose stripped
    URL is the non-empty text [u]. *)
Definition offered_for (k u : string) : Prop :=
  exists raw item,
    tavily_invoke k = inr (Some raw) /\ item ∈ raw /\ url_of item = u
    /\ u <> EmptyString.

(** The queries of a [search_queries] list that are searched. *)
Definition cleaned (search_queries : list pyval) : list string :=
  List.filter (fun k => negb (String.eqb k EmptyString)) (map _clean_query search_queries).

(** [args.get("search_queries", []) or []] of a call. *)
Definition queries_of (tc : tool_call) : list pyval :=
  default [] (search_queries (default no_args (args tc))).

(** [msg] is the reply to the call [tc]: it carries the call identifier
    and a mapping with one well-stored entry per searched query. *)
Definition reply_to (seen0 seen : gset string) (tc : tool_call) (msg : message) : Prop :=
  exists d, msg = ToolMessage (Some d) (id tc)
    /\ well_stored seen0 seen d
    /\ forall k, k ∈ PyDict.keys d <-> k ∈ cleaned (queries_of tc).

End Executor.

(** The calls of the last message that [execute_tools] answers. *)
Definition recognized_calls (state : list message) : list tool_call :=
  match last state with
  | Some (AIMessage tcs) => List.filter (name_in recognized) tcs
  | _ => []
  end.

(** Every call that [execute_tools] answers carries an identifier. *)
Definition identified (state : list message) : Prop :=
  Forall (fun tc => id tc <> None) (recognized_calls state).

(** The queries that [execute_tools] searches for a history. *)
Definition batch_queries (state : list message) : list string :=
  concat (map (fun tc => cleaned (queries_of tc)) (recognized_calls state)).

(** The URLs a message hands to the caller. *)
Definition value_urls (v : query_value) : list string :=
  match v with
  | Results l => map url l
  | ErrorRecord _ => []
  end.

Definition message_urls (msg : message) : list string :=
  match msg with
  | ToolMessage (Some d) _ => concat (map (fun kv => value_urls kv.2) d)
  | _ => []
  end.

Definition emitted_urls (msgs : list message) : list string :=
  concat (map message_urls msgs).

(** The distinct texts of a list, in the order of their first
    occurrence. *)
Definition first_occurrences (l : list string) : list string :=
  fold_left (fun acc k => if bool_decide (k ∈ acc) then acc else acc ++ [k]) l [].

(** The URLs in the result lists of a mapping, in key order. *)
Definition mapping_urls (d : PyDict.t query_value) : list string :=
  concat (map (fun kv => value_urls kv.2) d).

(** The URLs of [l] are shown once: distinct, non-empty and stripped, new
    with respect to [seen0] and registered in [seen]. *)
Definition shown_once (seen0 seen : gset string) (l : list string) : Prop :=
  NoDup l
  /\ forall u, u ∈ l ->
       u <> EmptyString /\ PyStr.strip u = u /\ (u ∉ seen0) /\ (u ∈ seen).

(** [SEEN_URLS.clear()] *)
Definition clear (seen : gset string) : gset string := ∅.

(** What a session does to [SEEN_URLS]: searches for a history, or the
    reset behind the UI's button. *)
Inductive session_op :=
| OpExecute (state : list message)
| OpClear.

Section SessionOps.

Context {E : Type}.
Variable repr : E -> string.
Variable tavily_invoke : string -> E + option (list search_item).
Variable validation_error : E.

Definition session_step (seen : gset string) (op : session_op) : gset string :=
  match op with
  | OpExecute state => (execute_tools repr tavily_invoke validation_error state seen).2
  | OpClear => clear seen
  end.

(** [SEEN_URLS] after the operations of a session, which starts with the
    empty set. *)
Definition session (ops : list session_op) : gset string :=
  fold_left session_step ops ∅.

(** The seen set together with the URLs handed to the caller since the
    last reset, oldest first. *)
Definition session_step_log (st : gset string * list string) (op : session_op)
  : gset string * list string :=
  match op with
  | OpExecute state =>
      match execute_tools repr tavily_invoke validation_error state st.1 with
      | (inr msgs, seen') => (seen', st.2 ++ emitted_urls msgs)
      | (inl _, seen') => (seen', st.2)
      end
  | OpClear => (clear st.1, [])
  end.

Definition session_log (ops : list session_op) : gset string * list string :=
  fold_left session_step_log ops (∅, []).

End SessionOps.

End ExecuteTools.

(** ** The graph: draft, then search and revise until the controller stops *)

Module Session.

(** A message the search executor acts on: it carries a call whose name
    is one of the two structured-answer kinds. *)
Definition actionable (msg : message) : bool :=
  existsb (name_in ExecuteTools.recognized) (msg_tool_calls msg).

(** Every such call of the message carries an identifier. *)
Definition with_ids (msg : message) : bool :=
  forallb (fun tc => match id tc with Some _ => true | None => false end)
    (List.filter (name_in ExecuteTools.recognized) (msg_tool_calls msg)).

Section Driver.

Context {E : Type}.
Variable repr : E -> string.
Variable tavily_invoke : string -> E + option (list search_item).
Variable validation_error : E.

(** The two model chains: from the history to the next message. *)
Variables first_responder_chain revisor_chain : list message -> message.

(** The conditional edge after the [revisor] node, with the state [B]
    it keeps between calls. *)
Context {B : Type}.
Variable decide : B -> list message -> route * B.

(** How a run ends: with its history, the seen set and what the
    controller answered at each of its calls; with an exception that
    escaped a node; or cut short by the fuel of this model. *)
Inductive outcome :=
| Finished (messages : list message) (seen : gset string) (trace : list (route * B))
| Raised (e : E)
| OutOfFuel.

Definition logged (step : route * B) (o : outcome) : outcome :=
  match o with
  | Finished messages seen trace => Finished messages seen (step :: trace)
  | other => other
  end.

(** One pass [execute_tools -> revisor -> event_loop], repeated while
    the controller routes back to [execute_tools]. *)
Fixpoint cycle (fuel : nat) (state : list message) (seen : gset string) (b : B)
  : outcome :=
  match fuel with
  | O => OutOfFuel
  | S fuel' =>
      match ExecuteTools.execute_tools repr tavily_invoke validation_error state seen with
      | (inl e, _) => Raised e
      | (inr tool_messages, seen') =>
          let state := state ++ tool_messages in
          let state := state ++ [revisor_chain state] in
          match decide b state with
          | (END, b') => Finished state seen' [(END, b')]
          | (EXECUTE_TOOLS, b') =>
              logged (EXECUTE_TOOLS, b') (cycle fuel' state seen' b')
          end
      end
  end.

(** [app.invoke(question)]: the entry point is [draft]. *)
Definition invoke (fuel : nat) (question : string) (seen : gset string) (b : B)
  : outcome :=
  let state := [HumanMessage question] in
  let state := state ++ [first_responder_chain state] in
  cycle fuel state seen b.


End Driver.


End Session.

(** ** The specification's wording, for comparison with the code *)

Module Spec.

(** Section 4.4: the four sub-scores, from the word count, the number of
    references, the number of inline citations and the number of queries
    used. *)
Definition length_fit (words : Q) : Q := Qmax 0 (30 - 0.1 * Qabs (words - 250)).
Definition reference_count (n : Q) : Q := Qmin 20 (5 * n).
Definition citation_density (n : Q) : Q := Qmin 20 (4 * n).
Definition query_coverage (n : Q) : Q := Qmin 30 (10 * Qmin 3 n).

Definition score (ans : option string) (refs queries_used : list string) : Q :=
  match ans with
  | None | Some EmptyString => 0
  | Some text =>
      length_fit (PyNum.len (PyStr.split text))
      + reference_count (PyNum.len refs)
      + citation_density (PyNum.len (PyStr.findall_citations text))
      + query_coverage (PyNum.len queries_used)
  end.

(** Section 4.2, step 1: coerce to text, strip surrounding whitespace,
    then strip trailing commas, then strip surrounding quotes (double,
    then single, the order the code takes them in). *)
Definition normalize (q : pyval) : string :=
  PyStr.strip_chars "'"
    (PyStr.strip_chars ExecuteTools.dquote
       (PyStr.rstrip_chars "," (PyStr.strip (py_str q)))).

End Spec.

(** ** Sample collaborators and histories *)

Module Sample.

(** An exception of the search tool and its [repr]. *)
Inductive exn :=
| TimeoutError (msg : string)
| ValidationError (msg : string).

Definition repr (e : exn) : string :=
  match e with
  | TimeoutError msg => "TimeoutError('" +:+ msg +:+ "')"
  | ValidationError msg => "ValidationError('" +:+ msg +:+ "')"
  end.

(** What the [ToolMessage] constructor raises without an identifier. *)
Definition validation_error : exn := ValidationError "tool_call_id".

Definition item (u : string) : search_item :=
  {| item_title := Some "A page"%string;
     item_url := Some u;
     item_content := None;
     item_snippet := Some "From the snippet field"%string |}.

(** A search tool that times out on the query [q] and returns four
    records for any other query. *)
Definition tavily (query : string) : exn + option (list search_item) :=
  if String.eqb query "q" then inl (TimeoutError "x")
  else inr (Some [item "https://a.example/1"; item " https://a.example/2 ";
                  item "https://a.example/3"; item "https://a.example/4"]).

(** A message with one structured answer. *)
Definition structured (kind ans : string) (refs : list string) (queries : list pyval)
  : message :=
  AIMessage [{| name := Some kind;
                id := Some "call_1"%string;
                args := Some {| answer := Some ans;
                                references := Some refs;
                                search_queries := Some queries |} |}].

Definition first_responder_chain (history : list message) : message :=
  structured "AnswerQuestion" "AI helps" [] [PStr "ai"; PStr "q"].

Definition revisor_chain (history : list message) : message :=
  structured "ReviseAnswer" "AI helps [1]" ["https://example.com/a"%string]
    [PStr "ai tools"].

(** A scored input: three words, one citation, one reference, one query. *)
Definition sample_answer : option string := Some "AI helps [1]"%string.
Definition sample_refs : list string := ["https://example.com/a"%string].
Definition sample_queries : list string := ["ai"%string].

(** A history after one search and one revision. *)
Definition revised_once : list message :=
  [HumanMessage "How can a small business use AI?";
   structured "AnswerQuestion" "AI helps" [] [PStr "ai"];
   ToolMessage (Some [("ai"%string, Results [])]) (Some "call_1"%string);
   structured "ReviseAnswer" "AI helps [1]" ["https://example.com/a"%string] [PStr "ai tools"]].

(** The same history after a second search and a revision whose answer is
    the empty text. *)
Definition revised_to_empty : list message :=
  revised_once ++
  [ToolMessage (Some [("ai tools"%string, Results [])]) (Some "call_1"%string);
   structured "ReviseAnswer" "" [] [PStr "ai tools"]].

(** The first history a run hands to the search executor. *)
Definition drafted : list message :=
  [HumanMessage "How can a small business use AI?";
   structured "AnswerQuestion" "AI helps" [] [PStr "ai"]].

(** The reply to it when the session begins. *)
Definition first_reply : list message :=
  [ToolMessage
     (Some [("ai"%string,
             Results
               [ExecuteTools.project (item "https://a.example/1") "https://a.example/1";
                ExecuteTools.project (item "https://a.example/2") "https://a.example/2";
                ExecuteTools.project (item "https://a.example/3") "https://a.example/3"])])
     (Some "call_1"%string)].

(** The raw query of the normalisation scenario: a space, a quoted
    phrase, a comma and two spaces. *)
Definition quoted_query : pyval :=
  PStr (" " +:+ ExecuteTools.dquote +:+ "ai trends" +:+ ExecuteTools.dquote +:+ ",  ").

(** A run of the UI's graph with these collaborators, and what it ends
    with. *)
Definition run : Session.outcome :=
  Session.invoke repr tavily validation_error first_responder_chain revisor_chain
    (UiApp.event_loop 2)
    5 "How can a small business use AI?" ∅ UiApp.best_init.

Definition final_messages : list message :=
  match run with Session.Finished messages _ _ => messages | _ => [] end.

Definition final_seen : gset string :=
  match run with Session.Finished _ seen _ => seen | _ => ∅ end.

Definition final_trace : list (route * Q) :=
  match run with Session.Finished _ _ trace => trace | _ => [] end.

(** A text of [n] words. *)
Fixpoint words (n : nat) : string :=
  match n with
  | O => EmptyString
  | S n' => "word " +:+ words n'
  end.

(** Chains of a model that answers in plain text, without a structured
    answer. *)
Definition plain_chain (history : list message) : message := AIMessage [].

End Sample.

(** The URLs of a list of records. *)
Definition urls (compact : list evidence) : list string := map url compact.

(** A number with at most two decimals. *)
Definition decimal2 (q : Q) : Prop := exists k : Z, q * 100 == inject_Z k.

Example strip_ex : PyStr.strip "  a b ,  " = "a b ,"%string.
Proof. reflexivity. Qed.

Example split_ex : PyStr.split "  one two   three " = ["one"; "two"; "three"]%string.
Proof. reflexivity. Qed.

Example findall_ex :
  PyStr.findall_citations "x [1] [a] [[23]] [4 [] [56" = ["[1]"; "[23]"]%string.
Proof. reflexivity. Qed.

Example round2_ex : PyNum.round2 2.675 == 2.68 /\ PyNum.round2 2.665 == 2.66.
Proof. split; vm_compute; reflexivity. Qed.

Example py_str_ex : py_str (PInt (-42)) = "-42"%string /\ py_str PNone = "None"%string.
Proof. split; reflexivity. Qed.

Example score_ex :
  UiApp.evaluate_answer (Some "AI helps [1]"%string) ["https://example.com/a"%string] ["ai"%string]
  == 24.3.
Proof. vm_compute. reflexivity. Qed.

Example clean_query_ex :
  ExecuteTools._clean_query (PStr "'x', ") = "x"%string
  /\ ExecuteTools._clean_query (PInt 7) = "7"%string.
Proof. split; reflexivity. Qed.

(** ** The citation scan *)

Lemma span_digits_length (s ds tl : string) :
  PyStr.span_digits s = (ds, tl) ->
  (String.length ds + String.length tl = String.length s)%nat.
Proof.
  revert ds tl. induction s as [|c s IH]; intros ds tl; simpl.
  - intros [= <- <-]. reflexivity.
  - destruct (PyStr.isdigit c).
    + destruct (PyStr.span_digits s) as [ds' tl'] eqn:Hs. intros [= <- <-].
      simpl. rewrite (IH ds' tl' eq_refl). reflexivity.
    + intros [= <- <-]. reflexivity.
Qed.

(** A match consumes at least the three characters of the shortest
    citation. *)
Lemma match_citation_shorter (s m r : string) :
  PyStr.match_citation s = Some (m, r) ->
  (String.length r + 3 <= String.length s)%nat.
Proof.
  unfold PyStr.match_citation. destruct s as [|c t]; [discriminate|].
  destruct (Ascii.eqb_spec c "["%char) as [-> | Hne].
  - destruct (PyStr.span_digits t) as [ds tl] eqn:Hspan.
    apply span_digits_length in Hspan.
    destruct ds as [|d ds]; [discriminate|].
    destruct tl as [|c' tl]; [discriminate|].
    destruct (Ascii.eqb_spec c' "]"%char) as [-> | Hne].
    + intros [= <- <-]. simpl in *. lia.
    + destruct c' as [[] [] [] [] [] [] [] []]; try discriminate; congruence.
  - destruct c as [[] [] [] [] [] [] [] []]; try discriminate; congruence.
Qed.

(** The scan does not depend on its fuel once the fuel covers the text:
    [findall_citations] is the scan run to the end. *)
Lemma findall_go_fuel (fuel1 fuel2 : nat) (s : string) :
  (String.length s <= fuel1)%nat -> (String.length s <= fuel2)%nat ->
  PyStr.findall_go fuel1 s = PyStr.findall_go fuel2 s.
Proof.
  revert fuel2 s. induction fuel1 as [|fuel1 IH]; intros fuel2 s H1 H2.
  - destruct s; [|simpl in H1; lia]. destruct fuel2; reflexivity.
  - destruct s as [|c rest]; [destruct fuel2; reflexivity|].
    destruct fuel2 as [|fuel2]; [simpl in H2; lia|].
    cbn [PyStr.findall_go].
    destruct (PyStr.match_citation (String c rest)) as [[m r]|] eqn:Hm.
    + apply match_citation_shorter in Hm. simpl in *. f_equal. apply IH; lia.
    + simpl in *. apply IH; lia.
Qed.

(** ** Arithmetic of the scorer *)

Section ScoreArith.

#[local] Instance decimal2_proper : Proper (Qeq ==> iff) decimal2.
Proof.
  intros x y Hxy. unfold decimal2.
  split; intros [k Hk]; exists k; [rewrite <- Hxy | rewrite Hxy]; exact Hk.
Qed.

Lemma decimal2_Z (z : Z) : decimal2 (inject_Z z).
Proof. exists (z * 100)%Z. rewrite inject_Z_mult. reflexivity. Qed.

Lemma decimal2_plus (a b : Q) : decimal2 a -> decimal2 b -> decimal2 (a + b).
Proof.
  intros [k Hk] [m Hm]. exists (k + m)%Z.
  rewrite inject_Z_plus, <- Hk, <- Hm. ring.
Qed.

Lemma decimal2_opp (a : Q) : decimal2 a -> decimal2 (- a).
Proof.
  intros [k Hk]. exists (- k)%Z. rewrite inject_Z_opp, <- Hk. ring.
Qed.

Lemma decimal2_tenths (z : Z) : decimal2 (0.1 * inject_Z z).
Proof.
  exists (10 * z)%Z. rewrite inject_Z_mult.
  change (inject_Z 10) with 10. field.
Qed.

Lemma decimal2_max (a b : Q) : decimal2 a -> decimal2 b -> decimal2 (Qmax a b).
Proof.
  intros Ha Hb. destruct (Q.max_spec a b) as [[_ ->] | [_ ->]]; assumption.
Qed.

Lemma decimal2_min (a b : Q) : decimal2 a -> decimal2 b -> decimal2 (Qmin a b).
Proof.
  intros Ha Hb. destruct (Q.min_spec a b) as [[_ ->] | [_ ->]]; assumption.
Qed.

Lemma decimal2_Zmult (z : Z) (a : Q) : decimal2 a -> decimal2 (inject_Z z * a).
Proof.
  intros [k Hk]. exists (z * k)%Z. rewrite inject_Z_mult, <- Hk. ring.
Qed.

Lemma Qabs_inject_sub (n m : Z) :
  Qabs (inject_Z n - inject_Z m) == inject_Z (Z.abs (n - m)).
Proof.
  unfold Qeq, Qabs, Qminus, Qplus, Qopp, inject_Z. simpl.
  f_equal. f_equal. lia.
Qed.

(** [round(q, 2)] leaves a number with two decimals as it is. *)
Lemma round2_exact (q : Q) : decimal2 q -> PyNum.round2 q == q.
Proof.
  intros [k Hk]. unfold PyNum.round2, PyNum.round_half_even.
  assert (Hfloor : Qfloor (q * 100) = k) by (rewrite Hk; apply Qfloor_Z).
  rewrite Hfloor.
  assert (Hlt : Qcompare (q * 100 - inject_Z k) (1 # 2) = Lt).
  { apply -> Qlt_alt. rewrite Hk.
    unfold Qlt, Qminus, Qplus, Qopp, inject_Z. simpl. lia. }
  rewrite Hlt, Qred_correct, <- Hk. field.
Qed.

Lemma len_nonneg {A} (l : list A) : 0 <= PyNum.len l.
Proof.
  unfold PyNum.len. change 0 with (inject_Z 0). rewrite <- Zle_Qle. lia.
Qed.

Lemma spec_score_decimal2 ans refs queries_used :
  decimal2 (Spec.score ans refs queries_used).
Proof.
  unfold Spec.score.
  destruct ans as [[|c text]|]; try apply (decimal2_Z 0).
  unfold Spec.length_fit, Spec.reference_count, Spec.citation_density,
    Spec.query_coverage, PyNum.len.
  repeat apply decimal2_plus.
  - apply decimal2_max; [apply (decimal2_Z 0)|].
    change 250 with (inject_Z 250). rewrite Qabs_inject_sub.
    apply decimal2_plus; [apply (decimal2_Z 30)|].
    apply decimal2_opp, decimal2_tenths.
  - apply decimal2_min; [apply (decimal2_Z 20)|].
    apply (decimal2_Zmult 5), decimal2_Z.
  - apply decimal2_min; [apply (decimal2_Z 20)|].
    apply (decimal2_Zmult 4), decimal2_Z.
  - apply decimal2_min; [apply (decimal2_Z 30)|].
    apply (decimal2_Zmult 10), decimal2_min; [apply (decimal2_Z 3)|apply decimal2_Z].
Qed.

Lemma spec_score_nonneg ans refs queries_used :
  0 <= Spec.score ans refs queries_used.
Proof.
  unfold Spec.score.
  destruct ans as [[|c text]|]; try apply Qle_refl.
  unfold Spec.length_fit, Spec.reference_count, Spec.citation_density,
    Spec.query_coverage.
  assert (Hmul : forall (z : Q) {A} (l : list A), 0 <= z -> 0 <= z * PyNum.len l).
  { intros z A l Hz. apply Qmult_le_0_compat; [exact Hz | apply len_nonneg]. }
  repeat (apply (Qplus_le_compat 0 _ 0) || apply Q.le_max_l);
    repeat (apply Q.min_glb; try discriminate);
    try (apply Hmul; discriminate).
  - apply (Qmult_le_0_compat 10); [discriminate|].
    apply Q.min_glb; [discriminate | apply len_nonneg].
Qed.

Lemma reference_count_none : Spec.reference_count (PyNum.len (@nil string)) == 0.
Proof. vm_compute. reflexivity. Qed.

Lemma query_coverage_none : Spec.query_coverage (PyNum.len (@nil string)) == 0.
Proof. vm_compute. reflexivity. Qed.

(** The scorer of [ui_app.py] computes the score of section 4.4. *)
Lemma ui_evaluate_answer_spec ans refs queries_used :
  UiApp.evaluate_answer ans refs queries_used == Spec.score ans refs queries_used.
Proof.
  destruct ans as [[|c text]|]; try reflexivity.
  unfold UiApp.evaluate_answer.
  change (PyStr.truthy (Some (String c text))) with true.
  unfold Spec.score.
  cbv beta zeta. simpl negb. cbv iota. simpl default.
  set (txt := String c text).
  match goal with
  | |- PyNum.round2 ?X == ?Y =>
      assert (Hraw : X == Y);
      [| rewrite round2_exact;
         [exact Hraw
         | rewrite Hraw; apply (spec_score_decimal2 (Some txt) refs queries_used)]]
  end.
  destruct refs as [|r rs], queries_used as [|q qs];
    rewrite ?reference_count_none, ?query_coverage_none;
    unfold Spec.length_fit, Spec.reference_count, Spec.citation_density,
      Spec.query_coverage;
    rewrite (Qmult_comm (Qabs _) 0.1), (Qmult_comm _ 4); ring.
Qed.

(** The first definition in [reflexion_agent.py] is the same function. *)
Lemma agent_l32_is_ui : ReflexionAgent.evaluate_answer_l32 = UiApp.evaluate_answer.
Proof. reflexivity. Qed.

Lemma ui_evaluate_answer_nonneg ans refs queries_used :
  0 <= UiApp.evaluate_answer ans refs queries_used.
Proof. rewrite ui_evaluate_answer_spec. apply spec_score_nonneg. Qed.

(** 250 words earn the whole length-fit sub-score. *)
Lemma length_fit_peak (text : string) :
  length (PyStr.split text) = 250%nat ->
  Spec.length_fit (PyNum.len (PyStr.split text)) == 30.
Proof.
  intros H. unfold PyNum.len. rewrite H. vm_compute. reflexivity.
Qed.

End ScoreArith.

(** ** The insertion-ordered mapping *)

Section DictFacts.

Context {V : Type}.
Implicit Types (d : PyDict.t V) (k : string) (v : V).

Lemma dict_get_set_eq k v d : PyDict.get k (PyDict.set k v d) = Some v.
Proof.
  induction d as [|[k' v'] d IH]; simpl.
  - now rewrite String.eqb_refl.
  - destruct (String.eqb k k') eqn:Hk; simpl; rewrite ?String.eqb_refl, ?Hk; auto.
Qed.

Lemma dict_get_set_ne k k' v d :
  k <> k' -> PyDict.get k' (PyDict.set k v d) = PyDict.get k' d.
Proof.
  intros Hne. induction d as [|[k0 v0] d IH]; simpl.
  - destruct (String.eqb k' k) eqn:Hk; [|reflexivity].
    apply String.eqb_eq in Hk. congruence.
  - destruct (String.eqb k k0) eqn:Hk; simpl.
    + apply String.eqb_eq in Hk. subst k0.
      destruct (String.eqb k' k) eqn:Hk'; [|reflexivity].
      apply String.eqb_eq in Hk'. congruence.
    + rewrite IH. reflexivity.
Qed.

Lemma dict_get_keys k d : is_Some (PyDict.get k d) <-> k ∈ PyDict.keys d.
Proof.
  unfold PyDict.keys. induction d as [|[k' v'] d IH]; simpl.
  - split; [intros [? [=]] | intros H; inversion H].
  - destruct (String.eqb k k') eqn:Hk.
    + apply String.eqb_eq in Hk. subst. split; [left | eauto].
    + apply String.eqb_neq in Hk. rewrite IH. split.
      * now right.
      * intros H. inversion H; subst; [congruence | assumption].
Qed.

(** Assigning to a key keeps every other key where it is and never
    duplicates a key. *)
Lemma dict_keys_set k v d :
  PyDict.keys (PyDict.set k v d)
  = if bool_decide (k ∈ PyDict.keys d) then PyDict.keys d else PyDict.keys d ++ [k].
Proof.
  unfold PyDict.keys. induction d as [|[k' v'] d IH]; simpl.
  - reflexivity.
  - destruct (String.eqb k k') eqn:Hk; simpl.
    + apply String.eqb_eq in Hk. subst.
      rewrite bool_decide_eq_true_2; [reflexivity | left].
    + apply String.eqb_neq in Hk. rewrite IH.
      destruct (bool_decide (k ∈ map fst d)) eqn:Hin.
      * apply bool_decide_eq_true in Hin.
        rewrite bool_decide_eq_true_2; [reflexivity | now right].
      * apply bool_decide_eq_false in Hin.
        rewrite bool_decide_eq_false_2; [reflexivity|].
        intros H. inversion H; subst; congruence.
Qed.

Lemma dict_get_entry k v d : PyDict.get k d = Some v -> (k, v) ∈ d.
Proof.
  induction d as [|[k' v'] d IH]; simpl; [discriminate|].
  destruct (String.eqb k k') eqn:Hk.
  - apply String.eqb_eq in Hk. intros [= ->]. subst. left.
  - intros H. right. auto.
Qed.

Lemma dict_set_entries k v d k' v' :
  (k', v') ∈ PyDict.set k v d -> (k', v') = (k, v) \/ (k', v') ∈ d.
Proof.
  induction d as [|[k0 v0] d IH]; simpl.
  - intros H. apply list_elem_of_singleton in H. auto.
  - destruct (String.eqb k k0).
    + intros H. apply elem_of_cons in H as [H | H]; [auto|]. right. now right.
    + intros H. apply elem_of_cons in H as [H | H].
      * right. rewrite H. left.
      * apply IH in H as [H | H]; [auto|]. right. now right.
Qed.

End DictFacts.

(** ** The evidence deduplicator and the item loop *)

Section ItemLoop.

Implicit Types (seen : gset string) (raw : list search_item)
  (compact : list evidence).

Lemma accept_new (u : string) seen :
  u <> EmptyString -> u ∉ seen ->
  ExecuteTools.accept u seen = (true, {[u]} ∪ seen).
Proof.
  intros Hne Hnotin. unfold ExecuteTools.accept.
  apply String.eqb_neq in Hne. rewrite Hne. simpl.
  rewrite bool_decide_eq_false_2; auto.
Qed.

Lemma accept_seen (u : string) seen :
  u ∈ seen -> ExecuteTools.accept u seen = (false, seen).
Proof.
  intros Hin. unfold ExecuteTools.accept.
  rewrite (bool_decide_eq_true_2 _ Hin), orb_true_r. reflexivity.
Qed.

Lemma accept_cases (u : string) seen :
  (ExecuteTools.accept u seen = (true, {[u]} ∪ seen)
   /\ u <> EmptyString /\ u ∉ seen)
  \/ (ExecuteTools.accept u seen = (false, seen)
      /\ (u = EmptyString \/ u ∈ seen)).
Proof.
  unfold ExecuteTools.accept.
  destruct (String.eqb u EmptyString) eqn:He; simpl.
  - right. apply String.eqb_eq in He. auto.
  - apply String.eqb_neq in He.
    destruct (bool_decide (u ∈ seen)) eqn:Hin.
    + right. apply bool_decide_eq_true in Hin. auto.
    + left. apply bool_decide_eq_false in Hin. auto.
Qed.

(** What the loop appends does not depend on what was collected before. *)
Lemma item_loop_app raw compact seen :
  ExecuteTools.item_loop raw compact seen
  = (compact ++ (ExecuteTools.item_loop raw [] seen).1,
     (ExecuteTools.item_loop raw [] seen).2).
Proof.
  revert compact seen. induction raw as [|item raw IH]; intros compact seen; simpl.
  - now rewrite app_nil_r.
  - destruct (accept_cases (ExecuteTools.url_of item) seen) as [[-> _] | [-> _]].
    + rewrite (IH (compact ++ _)), (IH [_]). simpl. now rewrite <- app_assoc.
    + apply IH.
Qed.

Lemma item_loop_spec raw seen :
  let '(compact, seen') := ExecuteTools.item_loop raw [] seen in
  compact `sublist_of` map (fun item => ExecuteTools.project item (ExecuteTools.url_of item)) raw
  /\ NoDup (urls compact)
  /\ (forall u, u ∈ urls compact -> u <> EmptyString /\ u ∉ seen)
  /\ (forall u, u ∈ seen' <-> u ∈ seen \/ u ∈ urls compact).
Proof.
  revert seen. induction raw as [|item raw IH]; intros seen; simpl.
  - split; [constructor|]. split; [constructor|]. split.
    + intros u Hu. inversion Hu.
    + intros u. split; [auto | intros [Hu | Hu]; [exact Hu | inversion Hu]].
  - destruct (accept_cases (ExecuteTools.url_of item) seen)
      as [[-> [Hne Hnew]] | [-> Hold]].
    + rewrite item_loop_app. simpl.
      specialize (IH ({[ExecuteTools.url_of item]} ∪ seen)).
      destruct (ExecuteTools.item_loop raw [] _) as [compact seen'].
      destruct IH as (Hsub & Hnd & Hfresh & Hseen). simpl.
      split; [now apply sublist_skip|].
      split.
      { constructor; [|exact Hnd]. intros Hin. apply Hfresh in Hin.
        destruct Hin as [_ Hin]. apply Hin, elem_of_union_l, elem_of_singleton.
        reflexivity. }
      split.
      * intros u Hu. apply elem_of_cons in Hu as [-> | Hu]; [auto|].
        apply Hfresh in Hu as [Hu1 Hu2]. split; [exact Hu1|].
        intros Hin. apply Hu2, elem_of_union_r, Hin.
      * intros u. rewrite Hseen, elem_of_union, elem_of_singleton, elem_of_cons.
        tauto.
    + specialize (IH seen).
      destruct (ExecuteTools.item_loop raw [] seen) as [compact seen'].
      destruct IH as (Hsub & Hnd & Hfresh & Hseen).
      split; [now apply sublist_cons|]. auto.
Qed.

(** Every record of [raw] with a URL has that URL in the set afterwards. *)
Lemma item_loop_covers raw seen item :
  item ∈ raw ->
  ExecuteTools.url_of item = EmptyString
  \/ ExecuteTools.url_of item ∈ (ExecuteTools.item_loop raw [] seen).2.
Proof.
  revert seen. induction raw as [|item' raw IH]; intros seen Hin; [inversion Hin|].
  simpl.
  assert (Hgrow : forall s, s ⊆ (ExecuteTools.item_loop raw [] s).2).
  { intros s u Hu. pose proof (item_loop_spec raw s) as Hspec.
    destruct (ExecuteTools.item_loop raw [] s) as [c s']. simpl.
    apply Hspec. auto. }
  apply elem_of_cons in Hin as [<- | Hin].
  - destruct (accept_cases (ExecuteTools.url_of item) seen)
      as [[-> _] | [-> [Hempty | Hold]]]; auto; right.
    + rewrite item_loop_app. simpl. apply Hgrow, elem_of_union_l, elem_of_singleton.
      reflexivity.
    + apply Hgrow, Hold.
  - destruct (accept_cases (ExecuteTools.url_of item') seen) as [[-> _] | [-> _]].
    + rewrite item_loop_app. simpl. apply IH, Hin.
    + apply IH, Hin.
Qed.

End ItemLoop.

(** ** The search executor *)

Lemma elem_of_map {A B} (f : A -> B) (l : list A) (y : B) :
  y ∈ map f l <-> exists x, y = f x /\ x ∈ l.
Proof.
  rewrite list_elem_of_In, in_map_iff. split; intros (x & H1 & H2); exists x.
  - now rewrite list_elem_of_In.
  - now rewrite <- list_elem_of_In.
Qed.

Section ExecutorFacts.

Context {E : Type}.
Variable repr : E -> string.
Variable tavily_invoke : string -> E + option (list search_item).
Variable validation_error : E.

#[local] Abbreviation search_query := (ExecuteTools.search_query repr tavily_invoke).
#[local] Abbreviation query_loop := (ExecuteTools.query_loop repr tavily_invoke).
#[local] Abbreviation tool_call_loop :=
  (ExecuteTools.tool_call_loop repr tavily_invoke validation_error).
#[local] Abbreviation execute_tools :=
  (ExecuteTools.execute_tools repr tavily_invoke validation_error).
#[local] Abbreviation stored := (ExecuteTools.stored repr tavily_invoke).
#[local] Abbreviation well_stored := (ExecuteTools.well_stored repr tavily_invoke).
#[local] Abbreviation offered_for := (ExecuteTools.offered_for tavily_invoke).
#[local] Abbreviation reply_to := (ExecuteTools.reply_to repr tavily_invoke).

(** The [try] block never lets an exception through. *)
Lemma search_query_run (k : string) (seen : gset string) :
  search_query k seen
  = match tavily_invoke k with
    | inl e => (inr (ErrorRecord (repr e)), seen)
    | inr raw =>
        (inr (Results (take 3 (ExecuteTools.item_loop (default [] raw) [] seen).1)),
         (ExecuteTools.item_loop (default [] raw) [] seen).2)
    end.
Proof.
  unfold ExecuteTools.search_query, ExecuteTools.try_except, ExecuteTools.invoke,
    ExecuteTools.compact_of, mbind, ExecuteTools.M_bind, mret, ExecuteTools.M_ret.
  destruct (tavily_invoke k) as [e | raw]; [reflexivity|].
  destruct (ExecuteTools.item_loop (default [] raw) [] seen). reflexivity.
Qed.

Lemma search_query_spec (seen0 seen : gset string) (k : string) :
  seen0 ⊆ seen ->
  exists v seen',
    search_query k seen = (inr v, seen')
    /\ seen ⊆ seen'
    /\ stored seen0 k v
    /\ (forall l r, v = Results l -> r ∈ l -> url r ∈ seen')
    /\ (forall u, u ∈ seen' -> u ∈ seen \/ offered_for k u).
Proof.
  intros Hsub. rewrite search_query_run. unfold ExecuteTools.stored.
  destruct (tavily_invoke k) as [e | raw] eqn:Hk.
  - exists (ErrorRecord (repr e)), seen. repeat split; auto. discriminate.
  - pose proof (item_loop_spec (default [] raw) seen) as Hspec.
    destruct (ExecuteTools.item_loop (default [] raw) [] seen) as [compact seen'] eqn:Hloop.
    destruct Hspec as (Hsl & _ & Hfresh & Hseen). simpl.
    exists (Results (take 3 compact)), seen'. split; [reflexivity|].
    split; [intros u Hu; apply Hseen; auto|].
    split; [exists seen; rewrite Hloop; auto|].
    split.
    + intros l r [= <-] Hr. apply Hseen. right.
      apply elem_of_map. exists r. split; [reflexivity|].
      eapply elem_of_sublist; [exact Hr | apply sublist_take].
    + intros u Hu. apply Hseen in Hu as [Hu | Hu]; [auto|]. right.
      destruct (Hfresh u Hu) as [Hne _].
      apply elem_of_map in Hu as (r & -> & Hr).
      eapply elem_of_sublist in Hr; [|exact Hsl].
      apply elem_of_map in Hr as (item & -> & Hitem).
      destruct raw as [raw|]; [|inversion Hitem].
      exists raw, item. auto.
Qed.

Lemma well_stored_mono (seen0 seen seen' : gset string) d :
  seen ⊆ seen' -> well_stored seen0 seen d -> well_stored seen0 seen' d.
Proof.
  intros Hsub Hd k v Hk. destruct (Hd k v Hk) as (H1 & H2 & H3).
  repeat split; auto. intros l r Hl Hr. apply Hsub. eauto.
Qed.

Lemma well_stored_set (seen0 seen : gset string) d k v :
  well_stored seen0 seen d -> k <> EmptyString -> stored seen0 k v ->
  (forall l r, v = Results l -> r ∈ l -> url r ∈ seen) ->
  well_stored seen0 seen (PyDict.set k v d).
Proof.
  intros Hd Hk Hv Hurls k' v' Hin.
  apply dict_set_entries in Hin as [[= -> ->] | Hin]; auto.
Qed.

(** The query loop returns: it stores one entry per cleaned, non-empty
    query, keeps the entries in first-assignment order, and only grows
    the seen set by URLs the search tool returned. *)
Lemma query_loop_spec (seen0 : gset string) (qs : list pyval) :
  forall d seen, seen0 ⊆ seen -> well_stored seen0 seen d ->
  exists d' seen',
    query_loop qs d seen = (inr d', seen')
    /\ seen ⊆ seen'
    /\ well_stored seen0 seen' d'
    /\ (forall k, k ∈ PyDict.keys d' <->
                  k ∈ PyDict.keys d \/ k ∈ ExecuteTools.cleaned qs)
    /\ (forall u, u ∈ seen' ->
                  u ∈ seen \/ exists k, k ∈ ExecuteTools.cleaned qs /\ offered_for k u).
Proof.
  induction qs as [|q qs IH]; intros d seen Hsub Hd; simpl.
  - exists d, seen. split; [reflexivity|]. split; [reflexivity|].
    split; [exact Hd|]. split; [|auto].
    intros k. split; [auto | intros [H | H]; [exact H | inversion H]].
  - unfold ExecuteTools.cleaned. simpl.
    destruct (String.eqb (ExecuteTools._clean_query q) EmptyString) eqn:Hq; simpl.
    + apply IH; assumption.
    + apply String.eqb_neq in Hq.
      destruct (search_query_spec seen0 seen (ExecuteTools._clean_query q) Hsub)
        as (v & seen1 & Hrun & Hsub1 & Hst & Hurls & Hoff).
      unfold mbind, ExecuteTools.M_bind. rewrite Hrun.
      destruct (IH (PyDict.set (ExecuteTools._clean_query q) v d) seen1)
        as (d' & seen' & Hloop & Hsub' & Hd' & Hkeys & Hseen).
      { etransitivity; eassumption. }
      { apply well_stored_set; auto. eapply well_stored_mono; eassumption. }
      exists d', seen'. split; [exact Hloop|].
      split; [etransitivity; eassumption|].
      split; [exact Hd'|]. split.
      * intros k. rewrite Hkeys, dict_keys_set, elem_of_cons.
        fold (ExecuteTools.cleaned qs).
        destruct (bool_decide _) eqn:Hin.
        -- apply bool_decide_eq_true in Hin. split; [tauto|].
           intros [H | [-> | H]]; auto.
        -- rewrite elem_of_app, list_elem_of_singleton. tauto.
      * intros u Hu. apply Hseen in Hu as [Hu | (k & Hk & Hu)].
        -- apply Hoff in Hu as [Hu | Hu]; [auto|]. right.
           exists (ExecuteTools._clean_query q). split; [left | exact Hu].
        -- right. exists k. split; [right; exact Hk | exact Hu].
Qed.

Lemma reply_to_mono (seen0 seen seen' : gset string) tc msg :
  seen ⊆ seen' -> reply_to seen0 seen tc msg -> reply_to seen0 seen' tc msg.
Proof.
  intros Hsub (d & Hmsg & Hd & Hkeys). exists d.
  split; [exact Hmsg|]. split; [|exact Hkeys].
  eapply well_stored_mono; eassumption.
Qed.

(** The loop over the calls answers the recognised calls in order.  It
    raises only when it reaches a recognised call without identifier, and
    then with the exception of the [ToolMessage] constructor; the searches
    made until then stay registered. *)
Lemma tool_call_loop_spec (seen0 : gset string) (tcs : list tool_call) :
  forall acc seen, seen0 ⊆ seen ->
  exists out seen',
    tool_call_loop tcs acc seen = (out, seen')
    /\ seen ⊆ seen'
    /\ (forall u, u ∈ seen' ->
          u ∈ seen
          \/ exists tc k, tc ∈ List.filter (name_in ExecuteTools.recognized) tcs
               /\ k ∈ ExecuteTools.cleaned (ExecuteTools.queries_of tc)
               /\ offered_for k u)
    /\ match out with
       | inr res =>
           exists msgs, res = acc ++ msgs
             /\ Forall2 (reply_to seen0 seen')
                  (List.filter (name_in ExecuteTools.recognized) tcs) msgs
             /\ Forall (fun tc => id tc <> None)
                  (List.filter (name_in ExecuteTools.recognized) tcs)
       | inl e =>
           e = validation_error
           /\ Exists (fun tc => id tc = None)
                (List.filter (name_in ExecuteTools.recognized) tcs)
       end.
Proof.
  induction tcs as [|tc tcs IH]; intros acc seen Hsub; simpl.
  - exists (inr acc), seen. split; [reflexivity|]. split; [reflexivity|].
    split; [auto|]. exists []. rewrite app_nil_r.
    split; [reflexivity|]. split; constructor.
  - destruct (name_in ExecuteTools.recognized tc) eqn:Hname; simpl.
    + destruct (query_loop_spec seen0 (ExecuteTools.queries_of tc) [] seen Hsub)
        as (d & seen1 & Hloop & Hsub1 & Hd & Hkeys & Hseen1).
      { intros k v H. inversion H. }
      unfold mbind, ExecuteTools.M_bind.
      unfold ExecuteTools.queries_of in Hloop. rewrite Hloop.
      assert (Hoff1 : forall u, u ∈ seen1 ->
                u ∈ seen
                \/ exists tc' k, tc' ∈ tc :: List.filter (name_in ExecuteTools.recognized) tcs
                     /\ k ∈ ExecuteTools.cleaned (ExecuteTools.queries_of tc')
                     /\ offered_for k u).
      { intros u Hu. apply Hseen1 in Hu as [Hu | (k & Hk & Hu)]; [auto|]. right.
        exists tc, k. split; [left | auto]. }
      unfold ExecuteTools.new_tool_message. destruct (id tc) as [i|] eqn:Hid.
      * destruct (IH (acc ++ [ToolMessage (Some d) (Some i)]) seen1)
          as (out & seen' & Hrest & Hsub' & Hseen' & Hout).
        { etransitivity; eassumption. }
        exists out, seen'. split; [exact Hrest|].
        split; [etransitivity; eassumption|]. split.
        -- intros u Hu. apply Hseen' in Hu as [Hu | (tc' & k & Htc & Hk & Hu)].
           ++ now apply Hoff1.
           ++ right. exists tc', k. split; [right; exact Htc | auto].
        -- destruct out as [e | res].
           ++ destruct Hout as [He Hex]. split; [exact He | now right].
           ++ destruct Hout as (msgs & -> & Hall & Hids).
              exists (ToolMessage (Some d) (Some i) :: msgs).
              split; [now rewrite <- app_assoc|]. split.
              ** constructor; [|exact Hall]. exists d. rewrite Hid.
                 split; [reflexivity|]. split; [eapply well_stored_mono; eassumption|].
                 intros k. rewrite Hkeys.
                 split; [intros [H | H]; [inversion H | exact H] | auto].
              ** constructor; [congruence | exact Hids].
      * exists (inl validation_error), seen1. split; [reflexivity|].
        split; [exact Hsub1|]. split; [exact Hoff1|].
        split; [reflexivity | now left].
    + apply IH. exact Hsub.
Qed.

(** [execute_tools] on any history: what it registers comes from the
    searches of the history's queries; it returns, with one reply per
    recognised call, exactly when every recognised call has its
    identifier, and otherwise raises the constructor's exception. *)
Lemma execute_tools_run (state : list message) (seen : gset string) :
  exists out seen',
    execute_tools state seen = (out, seen')
    /\ seen ⊆ seen'
    /\ (forall u, u ∈ seen' ->
          u ∈ seen \/ exists k, k ∈ ExecuteTools.batch_queries state /\ offered_for k u)
    /\ match out with
       | inr msgs =>
           Forall2 (reply_to seen seen') (ExecuteTools.recognized_calls state) msgs
           /\ ExecuteTools.identified state
       | inl e => e = validation_error /\ ~ ExecuteTools.identified state
       end.
Proof.
  unfold ExecuteTools.execute_tools, ExecuteTools.batch_queries,
    ExecuteTools.identified, ExecuteTools.recognized_calls.
  assert (Hnone : exists out seen',
             (@inr E (list message) [], seen) = (out, seen')
             /\ seen ⊆ seen'
             /\ (forall u, u ∈ seen' ->
                   u ∈ seen \/ exists k, k ∈ concat (map (fun tc => ExecuteTools.cleaned (ExecuteTools.queries_of tc)) []) /\ offered_for k u)
             /\ match out with
                | inr msgs =>
                    Forall2 (reply_to seen seen') [] msgs
                    /\ Forall (fun tc => id tc <> None) []
                | inl e => e = validation_error /\ ~ Forall (fun tc => id tc <> None) []
                end).
  { exists (inr []), seen. split; [reflexivity|]. split; [reflexivity|].
    split; [auto|]. split; constructor. }
  destruct (last state) as [[c | [|tc tcs] | c i]|]; try exact Hnone.
  destruct (tool_call_loop_spec seen (tc :: tcs) [] seen) as
    (out & seen' & Hrun & Hsub & Hseen & Hout); [reflexivity|].
  exists out, seen'. split; [exact Hrun|]. split; [exact Hsub|]. split.
  - intros u Hu. apply Hseen in Hu as [Hu | (tc' & k & Htc & Hk & Hu)]; [auto|].
    right. exists k. split; [|exact Hu].
    apply list_elem_of_In, in_concat.
    exists (ExecuteTools.cleaned (ExecuteTools.queries_of tc')). split.
    + apply in_map_iff. exists tc'. split; [reflexivity|]. now apply list_elem_of_In.
    + now apply list_elem_of_In.
  - destruct out as [e | res].
    + destruct Hout as [He Hex]. split; [exact He|]. intros Hall.
      apply Exists_exists in Hex as (tc' & Htc & Hnone').
      apply (proj1 (Forall_forall _ _) Hall) in Htc. contradiction.
    + destruct Hout as (msgs & -> & Hall & Hids). split; [exact Hall | exact Hids].
Qed.

(** When every recognised call has its identifier, [execute_tools]
    returns, whatever the search tool does. *)
Lemma execute_tools_spec (state : list message) (seen : gset string) :
  ExecuteTools.identified state ->
  exists msgs seen',
    execute_tools state seen = (inr msgs, seen')
    /\ seen ⊆ seen'
    /\ Forall2 (reply_to seen seen') (ExecuteTools.recognized_calls state) msgs
    /\ (forall u, u ∈ seen' ->
          u ∈ seen \/ exists k, k ∈ ExecuteTools.batch_queries state /\ offered_for k u).
Proof.
  intros Hid.
  destruct (execute_tools_run state seen) as (out & seen' & Hrun & Hsub & Hseen & Hout).
  destruct out as [e | msgs]; [destruct Hout as [_ H]; contradiction|].
  exists msgs, seen'. destruct Hout as [Hall _]. auto.
Qed.

End ExecutorFacts.

(** ** The iteration controllers, branch by branch *)

Section ControllerFacts.

Implicit Types (state : list message) (best : Q) (g : ReflexionAgent.globals).

Lemma ui_event_loop_cap max best state :
  (max < count_tool_visits state)%nat ->
  UiApp.event_loop max best state = (END, best).
Proof.
  intros H. unfold UiApp.event_loop.
  apply Nat.ltb_lt in H. now rewrite H.
Qed.

Lemma ui_event_loop_unscored max best state ans refs :
  (count_tool_visits state <= max)%nat ->
  UiApp.extract_last_tool_answer state UiApp.default_names = (ans, refs) ->
  PyStr.truthy ans = false ->
  UiApp.event_loop max best state = (EXECUTE_TOOLS, best).
Proof.
  intros Hc He Ht. unfold UiApp.event_loop.
  apply Nat.ltb_ge in Hc. now rewrite Hc, He, Ht.
Qed.

Lemma ui_event_loop_scored max best state ans refs :
  (count_tool_visits state <= max)%nat ->
  UiApp.extract_last_tool_answer state UiApp.default_names = (ans, refs) ->
  PyStr.truthy ans = true ->
  UiApp.event_loop max best state
  = let cur := UiApp.evaluate_answer ans refs
                 (UiApp.extract_latest_queries_from_tools state) in
    if Qle_bool cur best then (END, best) else (EXECUTE_TOOLS, cur).
Proof.
  intros Hc He Ht. unfold UiApp.event_loop.
  apply Nat.ltb_ge in Hc. now rewrite Hc, He, Ht.
Qed.


Lemma agent_event_loop_cap g state :
  (ReflexionAgent.MAX_ITERATIONS < count_tool_visits state)%nat ->
  ReflexionAgent.event_loop g state = (END, g).
Proof.
  intros H. unfold ReflexionAgent.event_loop.
  apply Nat.ltb_lt in H. now rewrite H.
Qed.

Lemma agent_event_loop_unscored g state ans refs :
  (count_tool_visits state <= ReflexionAgent.MAX_ITERATIONS)%nat ->
  ReflexionAgent.extract_last_tool_answer state ReflexionAgent.default_names = (ans, refs) ->
  PyStr.truthy ans = false ->
  ReflexionAgent.event_loop g state = (EXECUTE_TOOLS, g).
Proof.
  intros Hc He Ht. unfold ReflexionAgent.event_loop.
  apply Nat.ltb_ge in Hc. now rewrite Hc, He, Ht.
Qed.

Lemma agent_event_loop_scored g state ans refs :
  (count_tool_visits state <= ReflexionAgent.MAX_ITERATIONS)%nat ->
  ReflexionAgent.extract_last_tool_answer state ReflexionAgent.default_names = (ans, refs) ->
  PyStr.truthy ans = true ->
  ReflexionAgent.event_loop g state
  = let cur := ReflexionAgent.evaluate_answer g ans refs
                 (ReflexionAgent.extract_latest_queries_from_tools state) in
    if Qle_bool cur (ReflexionAgent._best_score g) then (END, g)
    else (EXECUTE_TOOLS,
          {| ReflexionAgent.evaluate_answer := ReflexionAgent.evaluate_answer g;
             ReflexionAgent._best_score := cur |}).
Proof.
  intros Hc He Ht. unfold ReflexionAgent.event_loop.
  apply Nat.ltb_ge in Hc. now rewrite Hc, He, Ht.
Qed.


(** The controller never rebinds the scorer. *)
Lemma agent_event_loop_scorer g state :
  ReflexionAgent.evaluate_answer (ReflexionAgent.event_loop g state).2
  = ReflexionAgent.evaluate_answer g.
Proof.
  unfold ReflexionAgent.event_loop.
  destruct (_ <? _)%nat; [reflexivity|].
  destruct (ReflexionAgent.extract_last_tool_answer _ _) as [ans refs].
  destruct (PyStr.truthy ans); [|reflexivity].
  cbv zeta. destruct (Qle_bool _ _); reflexivity.
Qed.

End ControllerFacts.

(** ** Runs of the graph *)

Section DriverFacts.

Context {E : Type}.
Variable repr : E -> string.
Variable tavily_invoke : string -> E + option (list search_item).
Variable validation_error : E.
Variables first_responder_chain revisor_chain : list message -> message.
Context {B : Type}.
Variable decide : B -> list message -> route * B.

#[local] Abbreviation cycle :=
  (Session.cycle repr tavily_invoke validation_error revisor_chain decide).
#[local] Abbreviation Finished := (@Session.Finished E B).

Lemma logged_finished step o messages seen trace :
  Session.logged step o = Finished messages seen trace ->
  exists rest, trace = step :: rest /\ o = Finished messages seen rest.
Proof.
  destruct o as [m s t | e |]; simpl; intros [= <- <- <-]. eauto.
Qed.




Lemma count_tool_visits_app (l1 l2 : list message) :
  count_tool_visits (l1 ++ l2) = (count_tool_visits l1 + count_tool_visits l2)%nat.
Proof. unfold count_tool_visits. now rewrite List.filter_app, length_app. Qed.

Lemma replies_counted (seen0 seen : gset string) (tcs : list tool_call) msgs :
  Forall2 (ExecuteTools.reply_to repr tavily_invoke seen0 seen) tcs msgs ->
  count_tool_visits msgs = length tcs.
Proof.
  induction 1 as [|tc msg tcs msgs (d & -> & _) _ IH]; [reflexivity|].
  unfold count_tool_visits in *. simpl. now rewrite IH.
Qed.

Lemma actionable_calls (state : list message) (msg : message) :
  last state = Some msg -> Session.actionable msg = true ->
  (1 <= length (ExecuteTools.recognized_calls state))%nat.
Proof.
  intros Hlast Hact. unfold ExecuteTools.recognized_calls. rewrite Hlast.
  unfold Session.actionable in Hact.
  apply existsb_exists in Hact as (tc & Hin & Hname).
  destruct msg as [c | tcs | c i]; simpl in Hin; try contradiction.
  assert (Hf : In tc (List.filter (name_in ExecuteTools.recognized) tcs))
    by (apply filter_In; auto).
  destruct (List.filter _ tcs); [contradiction | simpl; lia].
Qed.

(** The recognised calls of a history are those of its last message. *)
Lemma with_ids_identified (state : list message) (msg : message) :
  last state = Some msg -> Session.with_ids msg = true ->
  ExecuteTools.identified state.
Proof.
  intros Hlast Hids. unfold ExecuteTools.identified, ExecuteTools.recognized_calls.
  rewrite Hlast. unfold Session.with_ids in Hids.
  rewrite forallb_forall in Hids. apply List.Forall_forall. intros tc Hin.
  destruct msg as [c | tcs | c i]; simpl in *; try contradiction.
  apply Hids in Hin. now destruct (id tc).
Qed.

(** With a controller that stops above [max] tool messages and chains
    that always ask for a search, in calls that carry their identifier,
    a run with enough fuel finishes, after at most [max + 1] passes when
    it starts without tool messages. *)
Lemma cycle_terminates (max : nat) :
  (forall b state, (max < count_tool_visits state)%nat -> (decide b state).1 = END) ->
  (forall history, Session.actionable (revisor_chain history) = true) ->
  (forall history, Session.with_ids (revisor_chain history) = true) ->
  forall fuel state seen b msg,
    last state = Some msg -> Session.actionable msg = true ->
    Session.with_ids msg = true ->
    (1 <= fuel)%nat -> (max + 1 <= fuel + count_tool_visits state)%nat ->
    exists messages seen' trace,
      cycle fuel state seen b = Finished messages seen' trace
      /\ (length trace <= Nat.max 1 (max + 1 - count_tool_visits state))%nat.
Proof.
  intros Hcap Hrev Hrevid. induction fuel as [|fuel IH];
    intros state seen b msg Hlast Hact Hids Hfuel Hbudget; [lia|]. simpl.
  destruct (execute_tools_spec repr tavily_invoke validation_error state seen)
    as (msgs & seen1 & Hrun & _ & Hreplies & _);
    [eapply with_ids_identified; eassumption|].
  rewrite Hrun.
  apply replies_counted in Hreplies.
  pose proof (actionable_calls state msg Hlast Hact) as Hcalls.
  set (state1 := (state ++ msgs) ++ [revisor_chain (state ++ msgs)]).
  assert (Hcount : (count_tool_visits state + 1 <= count_tool_visits state1)%nat).
  { subst state1. rewrite !count_tool_visits_app. lia. }
  destruct (decide b state1) as [[|] b'] eqn:Hd.
  - eexists _, _, _. split; [reflexivity|]. simpl. lia.
  - assert (Hle : (count_tool_visits state1 <= max)%nat).
    { destruct (le_lt_dec (count_tool_visits state1) max) as [H | H]; [exact H|].
      apply (Hcap b) in H. rewrite Hd in H. discriminate. }
    destruct (IH state1 seen1 b' (revisor_chain (state ++ msgs)))
      as (messages & seen' & trace & Hrest & Hlen).
    + subst state1. apply last_snoc.
    + apply Hrev.
    + apply Hrevid.
    + lia.
    + lia.
    + rewrite Hrest. eexists _, _, _. split; [reflexivity|]. simpl. lia.
Qed.

End DriverFacts.

(** ** Query normalisation *)

Lemma clean_query_scenario : ExecuteTools._clean_query Sample.quoted_query = "ai trends"%string.
Proof. reflexivity. Qed.

Lemma cleaned_nonempty (qs : list pyval) (k : string) :
  k ∈ ExecuteTools.cleaned qs -> k <> EmptyString.
Proof.
  unfold ExecuteTools.cleaned. rewrite list_elem_of_In, filter_In.
  intros [_ H] ->. discriminate.
Qed.

Lemma cleaned_elem (qs : list pyval) (k : string) :
  k ∈ ExecuteTools.cleaned qs <->
  k <> EmptyString /\ exists q, q ∈ qs /\ ExecuteTools._clean_query q = k.
Proof.
  unfold ExecuteTools.cleaned. rewrite list_elem_of_In, filter_In, in_map_iff.
  rewrite negb_true_iff, String.eqb_neq.
  split.
  - intros [(q & Hq & Hin) Hne]. split; [exact Hne|]. exists q.
    now rewrite list_elem_of_In.
  - intros [Hne (q & Hin & Hq)]. split; [|exact Hne]. exists q.
    now rewrite <- list_elem_of_In.
Qed.

(** The code and the wording agree on every text that, once stripped of
    whitespace, does not begin with a comma. *)
Lemma clean_query_agrees (q : pyval) :
  PyStr.lstrip_by (fun c => PyStr.mem c ",") (PyStr.strip (py_str q)) = PyStr.strip (py_str q) ->
  ExecuteTools._clean_query q = Spec.normalize q.
Proof.
  intros H. unfold ExecuteTools._clean_query, Spec.normalize, PyStr.strip_chars at 3,
    PyStr.rstrip_chars.
  now rewrite H.
Qed.

(** C10: [_clean_query] strips commas at both ends of the text, where the
    normalisation is worded (and the comment above the code says) to strip
    trailing commas: on [",ai"] the code returns ["ai"] and the wording
    [",ai"]. *)
Theorem clean_query_strips_leading_commas :
  ExecuteTools._clean_query (PStr ",ai") = "ai"%string
  /\ Spec.normalize (PStr ",ai") = ",ai"%string
  /\ ExecuteTools._clean_query (PStr ",ai") <> Spec.normalize (PStr ",ai").
Proof. split; [reflexivity|]. split; [reflexivity|]. discriminate. Qed.

(** ** The scorer bound to the agent's name *)

(** During the run that line 121 starts, the agent scores as the UI does. *)
Lemma agent_scorer_at_invoke :
  ReflexionAgent.evaluate_answer ReflexionAgent.globals_at_invoke = UiApp.evaluate_answer.
Proof. reflexivity. Qed.

Lemma agent_l32_spec ans refs queries_used :
  ReflexionAgent.evaluate_answer_l32 ans refs queries_used
  == Spec.score ans refs queries_used.
Proof. rewrite agent_l32_is_ui. apply ui_evaluate_answer_spec. Qed.

(** The second definition ignores the answer and the queries and never
    returns more than 0. *)
Lemma agent_l141_values ans refs queries_used :
  ReflexionAgent.evaluate_answer_l141 ans refs queries_used == 0
  \/ ReflexionAgent.evaluate_answer_l141 ans refs queries_used == -10.
Proof.
  unfold ReflexionAgent.evaluate_answer_l141.
  destruct refs as [|r rs]; [left; vm_compute; reflexivity|].
  destruct (negb _); [right | left]; vm_compute; reflexivity.
Qed.

(** C1: once the module is loaded, [evaluate_answer] is the definition of
    lines 141-147: on a three-word answer with one citation, one reference
    and one query it returns -10 where the four sub-scores sum to 24.3, and
    on an empty answer with a reference it returns -10, not 0. *)
Theorem scorer_after_load_drops_subscores :
  ReflexionAgent.evaluate_answer ReflexionAgent.globals_loaded
    Sample.sample_answer Sample.sample_refs Sample.sample_queries == -10
  /\ Spec.score Sample.sample_answer Sample.sample_refs Sample.sample_queries == 24.3
  /\ ReflexionAgent.evaluate_answer ReflexionAgent.globals_loaded
       (Some EmptyString) Sample.sample_refs [] == -10
  /\ Spec.score (Some EmptyString) Sample.sample_refs [] == 0.
Proof. repeat (split; [vm_compute; reflexivity|]). vm_compute. reflexivity. Qed.

(** C5: once the module is loaded, the scorer the agent's controller calls
    and the scorer the UI's controller calls return different numbers on
    the same input: -10 and 24.3. *)
Theorem agent_and_ui_scorers_differ :
  ReflexionAgent.evaluate_answer ReflexionAgent.globals_loaded
    Sample.sample_answer Sample.sample_refs Sample.sample_queries == -10
  /\ UiApp.evaluate_answer Sample.sample_answer Sample.sample_refs Sample.sample_queries
     == 24.3
  /\ ~ ReflexionAgent.evaluate_answer ReflexionAgent.globals_loaded
         Sample.sample_answer Sample.sample_refs Sample.sample_queries
       == UiApp.evaluate_answer Sample.sample_answer Sample.sample_refs
            Sample.sample_queries.
Proof.
  repeat (split; [vm_compute; reflexivity|]). vm_compute. discriminate.
Qed.

(** ** The sentinel and the first scored answer *)

(** In the UI, the first answer that is scored always continues. *)
Lemma ui_first_scored_continues max state ans refs :
  (count_tool_visits state <= max)%nat ->
  UiApp.extract_last_tool_answer state UiApp.default_names = (ans, refs) ->
  PyStr.truthy ans = true ->
  UiApp.event_loop max UiApp.best_init state
  = (EXECUTE_TOOLS,
     UiApp.evaluate_answer ans refs (UiApp.extract_latest_queries_from_tools state)).
Proof.
  intros Hc He Ht. rewrite (ui_event_loop_scored _ _ _ _ _ Hc He Ht). cbv zeta.
  destruct (Qle_bool _ _) eqn:Hle; [|reflexivity].
  apply Qle_bool_iff in Hle.
  pose proof (ui_evaluate_answer_nonneg ans refs
                (UiApp.extract_latest_queries_from_tools state)) as Hpos.
  exfalso. apply (Qlt_irrefl 0).
  eapply Qle_lt_trans; [exact Hpos|]. eapply Qle_lt_trans; [exact Hle|]. reflexivity.
Qed.

(** So does the agent while line 121 runs the graph. *)
Lemma agent_first_scored_continues_at_invoke state ans refs :
  (count_tool_visits state <= ReflexionAgent.MAX_ITERATIONS)%nat ->
  ReflexionAgent.extract_last_tool_answer state ReflexionAgent.default_names = (ans, refs) ->
  PyStr.truthy ans = true ->
  (ReflexionAgent.event_loop ReflexionAgent.globals_at_invoke state).1 = EXECUTE_TOOLS.
Proof.
  intros Hc He Ht. rewrite (agent_event_loop_scored _ _ _ _ Hc He Ht). cbv zeta.
  destruct (Qle_bool _ _) eqn:Hle; [|reflexivity].
  apply Qle_bool_iff in Hle. simpl in Hle.
  pose proof (ui_evaluate_answer_nonneg ans refs
                (ReflexionAgent.extract_latest_queries_from_tools state)) as Hpos.
  exfalso. apply (Qlt_irrefl 0).
  eapply Qle_lt_trans; [exact Hpos|]. eapply Qle_lt_trans; [exact Hle|]. reflexivity.
Qed.

(** After line 141 the name is bound to the second definition, whatever
    the run of line 121 left in [_best_score]. *)
Lemma scorer_after_load (g : ReflexionAgent.globals) :
  ReflexionAgent.evaluate_answer (ReflexionAgent.rebind_l141 g)
  = ReflexionAgent.evaluate_answer_l141.
Proof. reflexivity. Qed.

(** A best score is never below the sentinel, so with the second
    definition bound no answer that is scored continues unless the best
    score is still -1 and the score is 0. *)
Lemma agent_l141_stops (g : ReflexionAgent.globals) state ans refs :
  (count_tool_visits state <= ReflexionAgent.MAX_ITERATIONS)%nat ->
  ReflexionAgent.extract_last_tool_answer state ReflexionAgent.default_names = (ans, refs) ->
  PyStr.truthy ans = true ->
  0 <= ReflexionAgent._best_score g ->
  ReflexionAgent.event_loop (ReflexionAgent.rebind_l141 g) state
  = (END, ReflexionAgent.rebind_l141 g).
Proof.
  intros Hc He Ht Hbest. rewrite (agent_event_loop_scored _ _ _ _ Hc He Ht). cbv zeta.
  rewrite scorer_after_load. simpl ReflexionAgent._best_score.
  destruct (Qle_bool _ _) eqn:Hle; [reflexivity|]. exfalso.
  assert (H : ReflexionAgent.evaluate_answer_l141 ans refs
                (ReflexionAgent.extract_latest_queries_from_tools state)
              <= ReflexionAgent._best_score g).
  { destruct (agent_l141_values ans refs
                (ReflexionAgent.extract_latest_queries_from_tools state)) as [-> | ->];
      [exact Hbest|].
    eapply Qle_trans; [|exact Hbest]. discriminate. }
  apply Qle_bool_iff in H. congruence.
Qed.

(** C4: once the module is loaded, the scorer bound to [evaluate_answer]
    returns -10 on a non-empty answer whose reference is on neither listed
    site, which is not above the initial best score -1: the first scored
    answer of the history is routed to [END]. *)
Theorem first_scored_answer_stops_after_load :
  (count_tool_visits Sample.revised_once <= ReflexionAgent.MAX_ITERATIONS)%nat
  /\ ReflexionAgent.extract_last_tool_answer Sample.revised_once
       ReflexionAgent.default_names = (Sample.sample_answer, Sample.sample_refs)
  /\ PyStr.truthy Sample.sample_answer = true
  /\ ReflexionAgent._best_score ReflexionAgent.globals_loaded == -1
  /\ ReflexionAgent.evaluate_answer ReflexionAgent.globals_loaded Sample.sample_answer
       Sample.sample_refs
       (ReflexionAgent.extract_latest_queries_from_tools Sample.revised_once) <= -1
  /\ ReflexionAgent.event_loop ReflexionAgent.globals_loaded Sample.revised_once
     = (END, ReflexionAgent.globals_loaded).
Proof.
  split; [vm_compute; lia|]. split; [reflexivity|]. split; [reflexivity|].
  split; [reflexivity|]. split; [vm_compute; discriminate|]. reflexivity.
Qed.

(** ** An empty latest answer *)

(** C9, as the code has it: when the tool-message count is within the
    maximum and the latest extracted answer is empty or absent, the
    controller routes to [execute_tools] without scoring and leaves the
    best score as it was, whatever that best score is. *)
Theorem unscored_answer_continues (max : nat) (best : Q) (g : ReflexionAgent.globals)
    (state : list message) (ans : option string) (refs : list string) :
  PyStr.truthy ans = false ->
  ((count_tool_visits state <= max)%nat ->
   UiApp.extract_last_tool_answer state UiApp.default_names = (ans, refs) ->
   UiApp.event_loop max best state = (EXECUTE_TOOLS, best))
  /\ ((count_tool_visits state <= ReflexionAgent.MAX_ITERATIONS)%nat ->
      ReflexionAgent.extract_last_tool_answer state ReflexionAgent.default_names
      = (ans, refs) ->
      ReflexionAgent.event_loop g state = (EXECUTE_TOOLS, g)).
Proof.
  intros Ht. split; intros Hc He.
  - eapply ui_event_loop_unscored; eassumption.
  - eapply agent_event_loop_unscored; eassumption.
Qed.

Lemma unscored_answer_continues_witness :
  PyStr.truthy (Some EmptyString) = false
  /\ (count_tool_visits Sample.revised_to_empty <= 2)%nat
  /\ UiApp.extract_last_tool_answer Sample.revised_to_empty UiApp.default_names
     = (Some EmptyString, [])
  /\ UiApp.event_loop 2 24.3 Sample.revised_to_empty = (EXECUTE_TOOLS, 24.3).
Proof.
  assert (Hc : (count_tool_visits Sample.revised_to_empty <= 2)%nat)
    by (vm_compute; lia).
  split; [reflexivity|]. split; [exact Hc|]. split; [reflexivity|].
  exact (proj1 (unscored_answer_continues 2 24.3 ReflexionAgent.globals_at_invoke
                  Sample.revised_to_empty (Some EmptyString) [] eq_refl)
           Hc eq_refl).
Defined.

(** C9, refuted as stated: the controller scores a first
    answer (best score 24.3), then sees an empty latest answer within the
    cap, and routes to [execute_tools], not to [END]. *)
Lemma empty_answer_after_scored_continues :
  (UiApp.event_loop 2 UiApp.best_init Sample.revised_once).1 = EXECUTE_TOOLS
  /\ (UiApp.event_loop 2 UiApp.best_init Sample.revised_once).2 == 24.3
  /\ (UiApp.extract_last_tool_answer Sample.revised_to_empty UiApp.default_names).1
     = Some EmptyString
  /\ (count_tool_visits Sample.revised_to_empty <= 2)%nat
  /\ (UiApp.event_loop 2 (UiApp.event_loop 2 UiApp.best_init Sample.revised_once).2
        Sample.revised_to_empty).1 <> END
  /\ (ReflexionAgent.event_loop
        (ReflexionAgent.event_loop ReflexionAgent.globals_at_invoke Sample.revised_once).2
        Sample.revised_to_empty).1 <> END.
Proof.
  split; [reflexivity|]. split; [vm_compute; reflexivity|]. split; [reflexivity|].
  split; [vm_compute; lia|]. split; vm_compute; discriminate.
Qed.

(** ** The no-improvement rule *)



(** ** The hard cap *)

(** C3, as the code has it: above the maximum number of tool messages a
    controller routes to [END] before it extracts or scores anything,
    whatever the best score, and with a maximum of 0 one tool message is
    enough; and when every message of the two chains carries a recognised
    structured answer, in calls that have their identifier, a run with
    enough fuel finishes after at most [max + 1] search-and-revise passes
    (3 for the agent). *)
Theorem hard_cap_bounds_every_run {E : Type} (repr : E -> string)
    (tavily_invoke : string -> E + option (list search_item)) (validation_error : E)
    (first_responder_chain revisor_chain : list message -> message) (max : nat) :
  (forall best state, (max < count_tool_visits state)%nat ->
     UiApp.event_loop max best state = (END, best))
  /\ (forall g state,
        (ReflexionAgent.MAX_ITERATIONS < count_tool_visits state)%nat ->
        ReflexionAgent.event_loop g state = (END, g))
  /\ (forall best state, (1 <= count_tool_visits state)%nat ->
        UiApp.event_loop 0 best state = (END, best))
  /\ ((forall history, Session.actionable (first_responder_chain history) = true) ->
      (forall history, Session.with_ids (first_responder_chain history) = true) ->
      (forall history, Session.actionable (revisor_chain history) = true) ->
      (forall history, Session.with_ids (revisor_chain history) = true) ->
      (forall fuel question seen best, (max + 1 <= fuel)%nat ->
         exists messages seen' trace,
           Session.invoke repr tavily_invoke validation_error
             first_responder_chain revisor_chain
             (UiApp.event_loop max) fuel question seen best
           = Session.Finished messages seen' trace
           /\ (length trace <= max + 1)%nat)
      /\ (forall fuel question seen g, (ReflexionAgent.MAX_ITERATIONS + 1 <= fuel)%nat ->
            exists messages seen' trace,
              Session.invoke repr tavily_invoke validation_error
                first_responder_chain revisor_chain
                ReflexionAgent.event_loop fuel question seen g
              = Session.Finished messages seen' trace
              /\ (length trace <= ReflexionAgent.MAX_ITERATIONS + 1)%nat)).
Proof.
  split; [intros; now apply ui_event_loop_cap|].
  split; [intros; now apply agent_event_loop_cap|].
  split; [intros; apply ui_event_loop_cap; lia|].
  intros Hdraft Hdraftid Hrev Hrevid.
  split.
  - intros fuel question seen best Hfuel. unfold Session.invoke.
    set (state := [HumanMessage question] ++ _).
    destruct (cycle_terminates repr tavily_invoke validation_error revisor_chain
                (UiApp.event_loop max) max)
      with (fuel := fuel) (state := state) (seen := seen) (b := best)
           (msg := first_responder_chain [HumanMessage question])
      as (messages & seen' & trace & Hrun & Hlen);
      try (reflexivity || apply Hdraft || apply Hdraftid || apply Hrev
           || apply Hrevid || lia).
    { intros b st H. now rewrite ui_event_loop_cap. }
    exists messages, seen', trace. split; [exact Hrun | lia].
  - intros fuel question seen g Hfuel. unfold Session.invoke.
    set (state := [HumanMessage question] ++ _).
    destruct (cycle_terminates repr tavily_invoke validation_error revisor_chain
                ReflexionAgent.event_loop ReflexionAgent.MAX_ITERATIONS)
      with (fuel := fuel) (state := state) (seen := seen) (b := g)
           (msg := first_responder_chain [HumanMessage question])
      as (messages & seen' & trace & Hrun & Hlen);
      try (reflexivity || apply Hdraft || apply Hdraftid || apply Hrev
           || apply Hrevid || lia).
    { intros b st H. now rewrite agent_event_loop_cap. }
    exists messages, seen', trace. split; [exact Hrun | lia].
Qed.

Lemma hard_cap_bounds_every_run_witness :
  (forall history, Session.actionable (Sample.first_responder_chain history) = true)
  /\ (forall history, Session.with_ids (Sample.first_responder_chain history) = true)
  /\ (forall history, Session.actionable (Sample.revisor_chain history) = true)
  /\ (forall history, Session.with_ids (Sample.revisor_chain history) = true)
  /\ (exists messages seen' trace,
        Session.invoke Sample.repr Sample.tavily Sample.validation_error
          Sample.first_responder_chain Sample.revisor_chain (UiApp.event_loop 0) 1
          "How can a small business use AI?" ∅ UiApp.best_init
        = Session.Finished messages seen' trace
        /\ (length trace <= 0 + 1)%nat).
Proof.
  split; [intros; reflexivity|]. split; [intros; reflexivity|].
  split; [intros; reflexivity|]. split; [intros; reflexivity|].
  refine (proj1 (proj2 (proj2 (proj2
            (hard_cap_bounds_every_run Sample.repr Sample.tavily Sample.validation_error
               Sample.first_responder_chain Sample.revisor_chain 0)))
            (fun _ => eq_refl) (fun _ => eq_refl) (fun _ => eq_refl) (fun _ => eq_refl))
            1%nat _ ∅ UiApp.best_init _).
  lia.
Defined.

(** ** Failing searches *)

(** C6: the loop over the queries of a call never raises, whatever the
    search tool does.  The mapping it returns has an entry for every query
    that is not empty once cleaned: the error record with the [repr] of
    the exception when the search of that query raises, a result list when
    it returns.  [execute_tools] puts each such mapping in a message with
    the identifier of the call, and it returns whenever every recognised
    call has one; when it raises, the exception is the one of the
    [ToolMessage] constructor for a call without identifier, never one of
    a search. *)
Theorem failed_search_is_recorded {E : Type} (repr : E -> string)
    (tavily_invoke : string -> E + option (list search_item)) (validation_error : E) :
  (forall (search_queries : list pyval) (seen : gset string),
     exists query_results seen',
       ExecuteTools.query_loop repr tavily_invoke search_queries [] seen
       = (inr query_results, seen')
       /\ forall q, q ∈ search_queries ->
            ExecuteTools._clean_query q <> EmptyString ->
            exists v, PyDict.get (ExecuteTools._clean_query q) query_results = Some v
              /\ (forall e, tavily_invoke (ExecuteTools._clean_query q) = inl e ->
                    v = ErrorRecord (repr e))
              /\ (forall raw, tavily_invoke (ExecuteTools._clean_query q) = inr raw ->
                    exists l, v = Results l))
  /\ (forall (state : list message) (seen : gset string),
        ExecuteTools.identified state ->
        exists msgs seen',
          ExecuteTools.execute_tools repr tavily_invoke validation_error state seen
          = (inr msgs, seen')
          /\ Forall2
               (fun tc msg =>
                  exists d, msg = ToolMessage (Some d) (id tc)
                    /\ forall q, q ∈ ExecuteTools.queries_of tc ->
                         ExecuteTools._clean_query q <> EmptyString ->
                         exists v, PyDict.get (ExecuteTools._clean_query q) d = Some v
                           /\ (forall e, tavily_invoke (ExecuteTools._clean_query q) = inl e ->
                                 v = ErrorRecord (repr e))
                           /\ (forall raw, tavily_invoke (ExecuteTools._clean_query q) = inr raw ->
                                 exists l, v = Results l))
               (ExecuteTools.recognized_calls state) msgs)
  /\ (forall (state : list message) (seen : gset string) e seen',
        ExecuteTools.execute_tools repr tavily_invoke validation_error state seen
        = (inl e, seen') ->
        e = validation_error /\ ~ ExecuteTools.identified state).
Proof.
  assert (Hentries : forall seen0 seen (qs : list pyval) d,
            ExecuteTools.well_stored repr tavily_invoke seen0 seen d ->
            (forall k, k ∈ PyDict.keys d <-> k ∈ [] \/ k ∈ ExecuteTools.cleaned qs) ->
            forall q, q ∈ qs -> ExecuteTools._clean_query q <> EmptyString ->
            exists v, PyDict.get (ExecuteTools._clean_query q) d = Some v
              /\ (forall e, tavily_invoke (ExecuteTools._clean_query q) = inl e ->
                    v = ErrorRecord (repr e))
              /\ (forall raw, tavily_invoke (ExecuteTools._clean_query q) = inr raw ->
                    exists l, v = Results l)).
  { intros seen0 seen qs d Hd Hkeys q Hq Hne.
    assert (Hin : ExecuteTools._clean_query q ∈ PyDict.keys d).
    { apply Hkeys. right. apply cleaned_elem. split; [exact Hne | eauto]. }
    apply dict_get_keys in Hin as [v Hv]. exists v. split; [exact Hv|].
    destruct (Hd _ _ (dict_get_entry _ _ _ Hv)) as (_ & Hst & _).
    unfold ExecuteTools.stored in Hst.
    split.
    - intros e He. now rewrite He in Hst.
    - intros raw Hraw. rewrite Hraw in Hst. destruct Hst as (s' & _ & ->). eauto. }
  split; [|split].
  - intros qs seen.
    destruct (query_loop_spec repr tavily_invoke seen qs [] seen)
      as (d & seen' & Hloop & _ & Hd & Hkeys & _); [reflexivity | |].
    { intros k v H. inversion H. }
    exists d, seen'. split; [exact Hloop|]. eapply Hentries; eassumption.
  - intros state seen Hid.
    destruct (execute_tools_spec repr tavily_invoke validation_error state seen Hid)
      as (msgs & seen' & Hrun & _ & Hreplies & _).
    exists msgs, seen'. split; [exact Hrun|].
    eapply Forall2_impl; [exact Hreplies|].
    intros tc msg (d & -> & Hd & Hkeys). exists d. split; [reflexivity|].
    eapply Hentries; [exact Hd|]. intros k. rewrite Hkeys.
    split; [auto | intros [H | H]; [inversion H | exact H]].
  - intros state seen e seen' Hrun.
    destruct (execute_tools_run repr tavily_invoke validation_error state seen)
      as (out & seen'' & Hrun' & _ & _ & Hout).
    rewrite Hrun in Hrun'. injection Hrun' as <- <-. exact Hout.
Qed.

(** The scenario of the specification: the search of [q] times out, the
    search of [ai] succeeds, and both are in the mapping. *)
Lemma timeout_scenario :
  (ExecuteTools.execute_tools Sample.repr Sample.tavily Sample.validation_error
     [HumanMessage "How can a small business use AI?";
      Sample.structured "AnswerQuestion" "AI helps" [] [PStr "q"; PStr " 'ai', "; PStr " "]]
     ∅).1
  = inr [ToolMessage
           (Some [("q"%string, ErrorRecord "TimeoutError('x')");
                  ("ai"%string,
                   Results
                     [ExecuteTools.project (Sample.item "https://a.example/1") "https://a.example/1";
                      ExecuteTools.project (Sample.item "https://a.example/2") "https://a.example/2";
                      ExecuteTools.project (Sample.item "https://a.example/3") "https://a.example/3"])])
           (Some "call_1"%string)].
Proof. vm_compute. reflexivity. Qed.

(** A recognised call without identifier: its query is searched and the
    URLs registered, then the constructor raises and no message is
    returned. *)
Lemma anonymous_call_scenario :
  (ExecuteTools.execute_tools Sample.repr Sample.tavily Sample.validation_error
     [HumanMessage "How can a small business use AI?";
      AIMessage [{| name := Some "AnswerQuestion"%string;
                    id := None;
                    args := Some {| answer := Some "AI helps"%string;
                                    references := None;
                                    search_queries := Some [PStr "ai"] |} |}]]
     ∅).1
  = inl (Sample.ValidationError "tool_call_id")
  /\ "https://a.example/4"%string
     ∈ (ExecuteTools.execute_tools Sample.repr Sample.tavily Sample.validation_error
          [HumanMessage "How can a small business use AI?";
           AIMessage [{| name := Some "AnswerQuestion"%string;
                         id := None;
                         args := Some {| answer := Some "AI helps"%string;
                                         references := None;
                                         search_queries := Some [PStr "ai"] |} |}]]
          ∅).2.
Proof.
  split; [vm_compute; reflexivity|].
  apply (bool_decide_unpack _). vm_compute. exact I.
Qed.

(** ** Deduplicated evidence *)

(** C7: when the search of a query returns, the list stored for it has at
    most three records; they are projections of returned records, in the
    returned order; their URLs are non-empty, pairwise distinct and were
    not in the seen set when the search began; fewer than three are stored
    only when no other new URL was returned; and a new URL is accepted
    once and refused from then on. *)
Theorem emitted_results_are_new {E : Type} (repr : E -> string)
    (tavily_invoke : string -> E + option (list search_item))
    (query : string) (raw : option (list search_item)) (seen : gset string) :
  tavily_invoke query = inr raw ->
  exists emitted seen',
    ExecuteTools.search_query repr tavily_invoke query seen = (inr (Results emitted), seen')
    /\ (length emitted <= 3)%nat
    /\ emitted `sublist_of`
         (map (fun item =>
                {| title := item_title item;
                   url := PyStr.strip (default EmptyString (item_url item));
                   snippet := if PyStr.truthy (item_content item)
                              then item_content item else item_snippet item |})
              (default [] raw))
    /\ NoDup (map url emitted)
    /\ (forall r, r ∈ emitted ->
          url r <> EmptyString /\ (url r ∉ seen) /\ (url r ∈ seen'))
    /\ ((length emitted < 3)%nat ->
        forall item, item ∈ default [] raw ->
          ExecuteTools.url_of item <> EmptyString -> ExecuteTools.url_of item ∉ seen ->
          ExecuteTools.url_of item ∈ map url emitted)
    /\ (forall u, u <> EmptyString -> u ∉ seen ->
          ExecuteTools.accept u seen = (true, {[u]} ∪ seen)
          /\ forall later, {[u]} ∪ seen ⊆ later ->
               ExecuteTools.accept u later = (false, later)).
Proof.
  intros Hraw. rewrite search_query_run, Hraw.
  pose proof (item_loop_spec (default [] raw) seen) as Hspec.
  pose proof (fun item => item_loop_covers (default [] raw) seen item) as Hcov.
  destruct (ExecuteTools.item_loop (default [] raw) [] seen) as [compact seen'].
  destruct Hspec as (Hsub & Hnd & Hfresh & Hseen). simpl in *.
  exists (take 3 compact), seen'. split; [reflexivity|].
  split; [rewrite length_take; lia|].
  split; [etransitivity; [apply sublist_take | exact Hsub]|].
  split.
  { apply (sublist_NoDup _ (urls compact)); [exact Hnd|]. unfold urls.
    rewrite <- (take_drop 3 compact) at 2. rewrite map_app. apply sublist_inserts_r.
    reflexivity. }
  assert (Htake : forall r, r ∈ take 3 compact -> url r ∈ urls compact).
  { intros r Hr. apply elem_of_map. exists r. split; [reflexivity|].
    eapply elem_of_sublist; [exact Hr | apply sublist_take]. }
  split.
  { intros r Hr. apply Htake in Hr. destruct (Hfresh _ Hr) as [H1 H2].
    split; [exact H1|]. split; [exact H2|]. apply Hseen. auto. }
  split.
  { intros Hlen item Hitem Hne Hnew.
    rewrite length_take in Hlen. rewrite take_ge by lia.
    destruct (Hcov item Hitem) as [H | H]; [contradiction|].
    apply Hseen in H as [H | H]; [contradiction | exact H]. }
  intros u Hne Hnew. split; [now apply accept_new|].
  intros later Hlater. apply accept_seen, Hlater, elem_of_union_l, elem_of_singleton.
  reflexivity.
Qed.

Lemma emitted_results_are_new_witness :
  Sample.tavily "ai" = inr (Some [Sample.item "https://a.example/1";
                                  Sample.item " https://a.example/2 ";
                                  Sample.item "https://a.example/3";
                                  Sample.item "https://a.example/4"])
  /\ exists emitted seen',
       ExecuteTools.search_query Sample.repr Sample.tavily "ai" {["https://a.example/1"%string]}
       = (inr (Results emitted), seen')
       /\ (length emitted <= 3)%nat
       /\ forall r, r ∈ emitted -> url r ∉ ({["https://a.example/1"%string]} : gset string).
Proof.
  split; [reflexivity|].
  destruct (emitted_results_are_new Sample.repr Sample.tavily "ai" _
              {["https://a.example/1"%string]} eq_refl)
    as (emitted & seen' & Hrun & Hlen & _ & _ & Hnew & _).
  exists emitted, seen'. split; [exact Hrun|]. split; [exact Hlen|].
  intros r Hr. apply (Hnew r Hr).
Defined.

(** A URL that is already in the set is dropped, the others keep their
    order, and the first three are stored. *)
Lemma dedup_scenario :
  (ExecuteTools.search_query Sample.repr Sample.tavily "ai" {["https://a.example/1"%string]}
     : (Sample.exn + query_value) * gset string).1
  = inr (Results
           [ExecuteTools.project (Sample.item "https://a.example/2") "https://a.example/2";
            ExecuteTools.project (Sample.item "https://a.example/3") "https://a.example/3";
            ExecuteTools.project (Sample.item "https://a.example/4") "https://a.example/4"]).
Proof. vm_compute. reflexivity. Qed.

(** ** The evidence set over a session *)

Section EvidenceFacts.

Context {E : Type}.
Variable repr : E -> string.
Variable tavily_invoke : string -> E + option (list search_item).
Variable validation_error : E.

#[local] Abbreviation session := (ExecuteTools.session repr tavily_invoke validation_error).

(** Whatever is handed to the caller is in the set. *)
Lemma emitted_in_seen (seen0 seen : gset string) (tcs : list tool_call) msgs :
  Forall2 (ExecuteTools.reply_to repr tavily_invoke seen0 seen) tcs msgs ->
  forall u, u ∈ ExecuteTools.emitted_urls msgs -> u ∈ seen.
Proof.
  unfold ExecuteTools.emitted_urls.
  induction 1 as [|tc msg tcs msgs (d & -> & Hd & _) _ IH]; intros u Hu; simpl in Hu.
  - inversion Hu.
  - apply elem_of_app in Hu as [Hu | Hu]; [|now apply IH].
    apply list_elem_of_In, in_concat in Hu as (l & Hl & Hu).
    apply in_map_iff in Hl as ([k v] & <- & Hkv).
    apply list_elem_of_In in Hkv. destruct (Hd _ _ Hkv) as (_ & _ & Hurls).
    destruct v as [l|]; simpl in Hu; [|contradiction].
    apply in_map_iff in Hu as (r & <- & Hr). apply (Hurls l r eq_refl).
    now apply list_elem_of_In.
Qed.

Lemma session_snoc (ops : list ExecuteTools.session_op) (op : ExecuteTools.session_op) :
  session (ops ++ [op])
  = ExecuteTools.session_step repr tavily_invoke validation_error (session ops) op.
Proof. unfold ExecuteTools.session. now rewrite fold_left_app. Qed.

End EvidenceFacts.

(** C8, as the code has it: at every point of a session, every URL in the
    seen set is the stripped, non-empty URL of a record that the search
    tool returned for a query searched in that session since the last
    reset; every URL handed to the caller is in the set; a search only
    adds to the set, and the reset empties it. *)
Theorem seen_urls_come_from_searches {E : Type} (repr : E -> string)
    (tavily_invoke : string -> E + option (list search_item)) (validation_error : E)
    (ops : list ExecuteTools.session_op) :
  (forall u, u ∈ ExecuteTools.session repr tavily_invoke validation_error ops ->
     exists state k, ExecuteTools.OpExecute state ∈ ops
       /\ k ∈ ExecuteTools.batch_queries state
       /\ ExecuteTools.offered_for tavily_invoke k u)
  /\ (forall state,
        ExecuteTools.session repr tavily_invoke validation_error ops
        ⊆ ExecuteTools.session repr tavily_invoke validation_error
            (ops ++ [ExecuteTools.OpExecute state]))
  /\ (forall state msgs seen',
        ExecuteTools.execute_tools repr tavily_invoke validation_error state
          (ExecuteTools.session repr tavily_invoke validation_error ops) = (inr msgs, seen') ->
        forall u, u ∈ ExecuteTools.emitted_urls msgs -> u ∈ seen')
  /\ ExecuteTools.session repr tavily_invoke validation_error (ops ++ [ExecuteTools.OpClear]) = ∅.
Proof.
  split; [|split; [|split]].
  - induction ops as [|op ops IH] using rev_ind; intros u Hu.
    + apply not_elem_of_empty in Hu. contradiction.
    + rewrite session_snoc in Hu. destruct op as [state|]; simpl in Hu.
      * destruct (execute_tools_run repr tavily_invoke validation_error state
                    (ExecuteTools.session repr tavily_invoke validation_error ops))
          as (out & seen' & Hrun & _ & Hseen & _).
        rewrite Hrun in Hu. simpl in Hu.
        apply Hseen in Hu as [Hu | (k & Hk & Hu)].
        -- destruct (IH u Hu) as (state' & k & Hop & Hk & Hoff).
           exists state', k. split; [apply elem_of_app; auto | auto].
        -- exists state, k. split; [|auto].
           apply elem_of_app. right. apply list_elem_of_singleton. reflexivity.
      * apply not_elem_of_empty in Hu. contradiction.
  - intros state. rewrite session_snoc. simpl.
    destruct (execute_tools_run repr tavily_invoke validation_error state
                (ExecuteTools.session repr tavily_invoke validation_error ops))
      as (out & seen' & Hrun & Hsub & _). now rewrite Hrun.
  - intros state msgs seen' Hrun.
    destruct (execute_tools_run repr tavily_invoke validation_error state
                (ExecuteTools.session repr tavily_invoke validation_error ops))
      as (out & seen'' & Hrun' & _ & _ & Hout).
    rewrite Hrun in Hrun'. injection Hrun' as <- <-. destruct Hout as [Hreplies _].
    eapply emitted_in_seen; eassumption.
  - rewrite session_snoc. reflexivity.
Qed.

(** C8, refuted as stated: the first search of a session is offered four
    new URLs; all four enter the seen set, three are handed to the caller,
    and the fourth is in the set without ever having been returned. *)
Lemma seen_url_never_returned :
  (ExecuteTools.execute_tools Sample.repr Sample.tavily Sample.validation_error
     Sample.drafted ∅).1
  = inr Sample.first_reply
  /\ ExecuteTools.session Sample.repr Sample.tavily Sample.validation_error
       [ExecuteTools.OpExecute Sample.drafted]
     = (ExecuteTools.execute_tools Sample.repr Sample.tavily Sample.validation_error
          Sample.drafted ∅).2
  /\ "https://a.example/4"%string
     ∈ ExecuteTools.session Sample.repr Sample.tavily Sample.validation_error
         [ExecuteTools.OpExecute Sample.drafted]
  /\ "https://a.example/4"%string ∉ ExecuteTools.emitted_urls Sample.first_reply.
Proof.
  split; [vm_compute; reflexivity|]. split; [reflexivity|].
  split; apply (bool_decide_unpack _); vm_compute; exact I.
Qed.

(** * Further properties of the code *)

(** ** Range and saturation of the scorer *)

Section ScoreShape.

Lemma len_cons {A} (x : A) (l : list A) : PyNum.len (x :: l) == PyNum.len l + 1.
Proof.
  unfold PyNum.len. cbn [length]. rewrite Nat2Z.inj_succ, <- Z.add_1_r, inject_Z_plus.
  reflexivity.
Qed.

Lemma len_at_least {A} (l : list A) (n : nat) :
  (n <= length l)%nat -> inject_Z (Z.of_nat n) <= PyNum.len l.
Proof. intros H. unfold PyNum.len. rewrite <- Zle_Qle. lia. Qed.

Lemma reference_count_mono (a b : Q) :
  a <= b -> Spec.reference_count a <= Spec.reference_count b.
Proof.
  intros H. unfold Spec.reference_count. apply Q.min_le_compat_l.
  apply Qmult_le_l; [reflexivity | exact H].
Qed.

Lemma reference_count_full (a : Q) : 4 <= a -> Spec.reference_count a == 20.
Proof.
  intros H. unfold Spec.reference_count. apply Q.min_l.
  apply Qle_trans with (5 * 4); [discriminate|].
  apply Qmult_le_l; [reflexivity | exact H].
Qed.

Lemma query_coverage_mono (a b : Q) :
  a <= b -> Spec.query_coverage a <= Spec.query_coverage b.
Proof.
  intros H. unfold Spec.query_coverage. apply Q.min_le_compat_l.
  apply Qmult_le_l; [reflexivity|]. now apply Q.min_le_compat_l.
Qed.

Lemma query_coverage_full (a : Q) : 3 <= a -> Spec.query_coverage a == 30.
Proof.
  intros H. unfold Spec.query_coverage. rewrite (Q.min_l 3 a H). reflexivity.
Qed.

Lemma spec_score_le_100 ans refs queries_used :
  Spec.score ans refs queries_used <= 100.
Proof.
  unfold Spec.score. destruct ans as [[|c text]|]; try discriminate.
  apply Qle_trans with (30 + 20 + 20 + 30); [|discriminate].
  repeat apply Qplus_le_compat; try apply Q.le_min_l.
  unfold Spec.length_fit. apply Q.max_lub; [discriminate|].
  apply Qle_trans with (30 - 0); [|discriminate]. unfold Qminus.
  apply Qplus_le_compat; [apply Qle_refl|]. apply Qopp_le_compat.
  apply Qmult_le_0_compat; [discriminate | apply Qabs_nonneg].
Qed.

Lemma spec_score_more_refs ans refs refs' queries_used :
  PyNum.len refs <= PyNum.len refs' ->
  Spec.score ans refs queries_used <= Spec.score ans refs' queries_used.
Proof.
  intros H. unfold Spec.score. destruct ans as [[|c text]|]; try apply Qle_refl.
  repeat apply Qplus_le_compat; try apply Qle_refl. now apply reference_count_mono.
Qed.

Lemma spec_score_more_queries ans refs queries queries' :
  PyNum.len queries <= PyNum.len queries' ->
  Spec.score ans refs queries <= Spec.score ans refs queries'.
Proof.
  intros H. unfold Spec.score. destruct ans as [[|c text]|]; try apply Qle_refl.
  repeat apply Qplus_le_compat; try apply Qle_refl. now apply query_coverage_mono.
Qed.

Lemma len_le_cons {A} (x : A) (l : list A) : PyNum.len l <= PyNum.len (x :: l).
Proof. unfold PyNum.len. rewrite <- Zle_Qle. cbn [length]. lia. Qed.

End ScoreShape.

(** X1: the complete scorer (that of the UI, which is also the first
    definition of the agent) returns a number between 0 and 100. *)
Theorem score_between_0_and_100 (ans : option string) (refs queries_used : list string) :
  0 <= UiApp.evaluate_answer ans refs queries_used <= 100
  /\ 0 <= ReflexionAgent.evaluate_answer_l32 ans refs queries_used <= 100.
Proof.
  rewrite agent_l32_is_ui.
  assert (H : 0 <= UiApp.evaluate_answer ans refs queries_used <= 100).
  { rewrite ui_evaluate_answer_spec. split;
      [apply spec_score_nonneg | apply spec_score_le_100]. }
  split; exact H.
Qed.

(** X2: one more reference, or one more query used, never lowers the
    score of the complete scorer. *)
Theorem score_grows_with_evidence (ans : option string) (refs queries_used : list string)
    (r q : string) :
  UiApp.evaluate_answer ans refs queries_used
    <= UiApp.evaluate_answer ans (r :: refs) queries_used
  /\ UiApp.evaluate_answer ans refs queries_used
       <= UiApp.evaluate_answer ans refs (q :: queries_used).
Proof.
  rewrite !ui_evaluate_answer_spec. split.
  - apply spec_score_more_refs, len_le_cons.
  - apply spec_score_more_queries, len_le_cons.
Qed.

(** X3: the score is saturated in the evidence: with four references
    already given another reference changes nothing, whatever the
    queries; and with three queries already used another query changes
    nothing, whatever the references. *)
Theorem score_saturates (ans : option string) (refs queries_used : list string)
    (r q : string) :
  ((4 <= length refs)%nat ->
   UiApp.evaluate_answer ans (r :: refs) queries_used
   == UiApp.evaluate_answer ans refs queries_used)
  /\ ((3 <= length queries_used)%nat ->
      UiApp.evaluate_answer ans refs (q :: queries_used)
      == UiApp.evaluate_answer ans refs queries_used).
Proof.
  rewrite !ui_evaluate_answer_spec. unfold Spec.score.
  destruct ans as [[|c text]|]; try (split; reflexivity).
  split.
  - intros Hr.
    assert (H4 : 4 <= PyNum.len refs) by apply (len_at_least refs 4 Hr).
    assert (H4' : 4 <= PyNum.len (r :: refs))
      by (eapply Qle_trans; [exact H4 | apply len_le_cons]).
    now rewrite (reference_count_full _ H4), (reference_count_full _ H4').
  - intros Hq.
    assert (H3 : 3 <= PyNum.len queries_used) by apply (len_at_least queries_used 3 Hq).
    assert (H3' : 3 <= PyNum.len (q :: queries_used))
      by (eapply Qle_trans; [exact H3 | apply len_le_cons]).
    now rewrite (query_coverage_full _ H3), (query_coverage_full _ H3').
Qed.

Lemma score_saturates_witness :
  (4 <= length ["a"; "b"; "c"; "d"]%string)%nat
  /\ UiApp.evaluate_answer Sample.sample_answer ("e" :: ["a"; "b"; "c"; "d"])%string []
     == UiApp.evaluate_answer Sample.sample_answer ["a"; "b"; "c"; "d"]%string []
  /\ (3 <= length ["x"; "y"; "z"]%string)%nat
  /\ UiApp.evaluate_answer Sample.sample_answer [] ("w" :: ["x"; "y"; "z"])%string
     == UiApp.evaluate_answer Sample.sample_answer [] ["x"; "y"; "z"]%string.
Proof.
  assert (H4 : (4 <= length ["a"; "b"; "c"; "d"]%string)%nat) by (simpl; lia).
  assert (H3 : (3 <= length ["x"; "y"; "z"]%string)%nat) by (simpl; lia).
  split; [exact H4|]. split.
  - exact (proj1 (score_saturates Sample.sample_answer ["a"; "b"; "c"; "d"]%string []
                    "e" "w") H4).
  - split; [exact H3|].
    exact (proj2 (score_saturates Sample.sample_answer [] ["x"; "y"; "z"]%string
                    "e" "w") H3).
Defined.

(** X4: the definition that the agent's module ends with never returns a
    positive score and looks at neither the answer nor the queries: it
    returns 0 or -10, the same for any two answers and query lists. *)
Theorem second_scorer_ignores_the_answer (ans ans' : option string)
    (refs queries_used queries_used' : list string) :
  ReflexionAgent.evaluate_answer_l141 ans refs queries_used
  = ReflexionAgent.evaluate_answer_l141 ans' refs queries_used'
  /\ ReflexionAgent.evaluate_answer_l141 ans refs queries_used <= 0
  /\ (ReflexionAgent.evaluate_answer_l141 ans refs queries_used == 0
      \/ ReflexionAgent.evaluate_answer_l141 ans refs queries_used == -10).
Proof.
  split; [reflexivity|].
  pose proof (agent_l141_values ans refs queries_used) as H.
  split; [|exact H]. destruct H as [-> | ->]; discriminate.
Qed.

(** ** The extractors *)

Section ExtractorFacts.

Implicit Types (h : list message) (msg : message) (names : list string).

(** The UI's copies are the agent's functions. *)
Lemma ui_extractors_are_agent's :
  UiApp.extract_last_tool_answer = ReflexionAgent.extract_last_tool_answer
  /\ UiApp.extract_latest_queries_from_tools
     = ReflexionAgent.extract_latest_queries_from_tools.
Proof. split; reflexivity. Qed.

(** Looking for the first match from the end is taking the last match. *)
Lemma find_rev_last {A} (f : A -> bool) (l : list A) :
  find f (rev l) = last (List.filter f l).
Proof.
  induction l as [|x l IH] using rev_ind; [reflexivity|].
  rewrite rev_unit, List.filter_app. simpl.
  destruct (f x); [now rewrite last_snoc | now rewrite app_nil_r].
Qed.

Lemma extract_answer_snoc h msg names :
  ReflexionAgent.extract_last_tool_answer (h ++ [msg]) names
  = match last (List.filter (name_in names) (msg_tool_calls msg)) with
    | Some tc =>
        (answer (default no_args (args tc)),
         default [] (references (default no_args (args tc))))
    | None => ReflexionAgent.extract_last_tool_answer h names
    end.
Proof.
  unfold ReflexionAgent.extract_last_tool_answer. rewrite rev_unit. simpl.
  now rewrite find_rev_last.
Qed.

Lemma extract_answer_none h names :
  Forall (fun msg => List.filter (name_in names) (msg_tool_calls msg) = []) h ->
  ReflexionAgent.extract_last_tool_answer h names = (None, []).
Proof.
  induction h as [|msg h IH] using rev_ind; intros Hall; [reflexivity|].
  apply Forall_app in Hall as [Hh Hmsg]. apply Forall_inv in Hmsg.
  rewrite extract_answer_snoc, Hmsg. simpl. now apply IH.
Qed.

Lemma extract_queries_snoc h msg :
  ReflexionAgent.extract_latest_queries_from_tools (h ++ [msg])
  = match msg with
    | ToolMessage (Some d) _ => PyDict.keys d
    | ToolMessage None _ => []
    | _ => ReflexionAgent.extract_latest_queries_from_tools h
    end.
Proof.
  unfold ReflexionAgent.extract_latest_queries_from_tools. rewrite rev_unit.
  destruct msg as [c | tcs | [d|] i]; reflexivity.
Qed.

Lemma extract_queries_skip h tail :
  Forall (fun msg => is_tool_message msg = false) tail ->
  ReflexionAgent.extract_latest_queries_from_tools (h ++ tail)
  = ReflexionAgent.extract_latest_queries_from_tools h.
Proof.
  induction tail as [|msg tail IH] using rev_ind; intros Hall.
  - now rewrite app_nil_r.
  - apply Forall_app in Hall as [Htail Hmsg]. apply Forall_inv in Hmsg.
    rewrite app_assoc, extract_queries_snoc.
    destruct msg as [c | tcs | c i]; try discriminate; now apply IH.
Qed.

End ExtractorFacts.

(** X5: the answer extractor returns what the last recognised call of the
    newest message that has one carries: appending a message with a
    recognised call replaces the result by that call's answer (absent when
    the call has none) and references, whatever older messages hold, and
    appending any other message changes nothing. *)
Theorem newest_recognised_call_wins (h : list message) (msg : message)
    (names : list string) :
  ReflexionAgent.extract_last_tool_answer (h ++ [msg]) names
  = match last (List.filter (name_in names) (msg_tool_calls msg)) with
    | Some tc =>
        (answer (default no_args (args tc)),
         default [] (references (default no_args (args tc))))
    | None => ReflexionAgent.extract_last_tool_answer h names
    end
  /\ UiApp.extract_last_tool_answer (h ++ [msg]) names
     = match last (List.filter (name_in names) (msg_tool_calls msg)) with
       | Some tc =>
           (answer (default no_args (args tc)),
            default [] (references (default no_args (args tc))))
       | None => UiApp.extract_last_tool_answer h names
       end.
Proof. split; apply extract_answer_snoc. Qed.

(** X6: on a history in which no message carries a recognised call, the
    empty history included, the answer extractor returns no answer and no
    references. *)
Theorem no_recognised_call_no_answer (h : list message) (names : list string) :
  Forall (fun msg => List.filter (name_in names) (msg_tool_calls msg) = []) h ->
  ReflexionAgent.extract_last_tool_answer h names = (None, [])
  /\ UiApp.extract_last_tool_answer h names = (None, []).
Proof. intros H. split; now apply extract_answer_none. Qed.

Lemma no_recognised_call_no_answer_witness :
  Forall (fun msg => List.filter (name_in ReflexionAgent.default_names)
                       (msg_tool_calls msg) = [])
    [HumanMessage "How can a small business use AI?";
     Sample.structured "Search" "AI helps" [] []]
  /\ ReflexionAgent.extract_last_tool_answer
       [HumanMessage "How can a small business use AI?";
        Sample.structured "Search" "AI helps" [] []]
       ReflexionAgent.default_names = (None, []).
Proof.
  assert (H : Forall (fun msg => List.filter (name_in ReflexionAgent.default_names)
                                   (msg_tool_calls msg) = [])
                [HumanMessage "How can a small business use AI?";
                 Sample.structured "Search" "AI helps" [] []])
    by (repeat constructor).
  split; [exact H|].
  exact (proj1 (no_recognised_call_no_answer _ _ H)).
Defined.

(** X7: the query extractor reads the newest tool message only: its keys
    in order when its content is a mapping, and no queries when it is not,
    even if an older tool message holds a mapping; messages of other kinds
    after it do not matter. *)
Theorem newest_tool_message_decides (h tail : list message)
    (content : option (PyDict.t query_value)) (call_id : option string) :
  Forall (fun msg => is_tool_message msg = false) tail ->
  ReflexionAgent.extract_latest_queries_from_tools (h ++ ToolMessage content call_id :: tail)
  = match content with Some d => PyDict.keys d | None => [] end
  /\ UiApp.extract_latest_queries_from_tools (h ++ ToolMessage content call_id :: tail)
     = match content with Some d => PyDict.keys d | None => [] end
  /\ ReflexionAgent.extract_latest_queries_from_tools tail = [].
Proof.
  intros Htail.
  assert (H : ReflexionAgent.extract_latest_queries_from_tools
                (h ++ ToolMessage content call_id :: tail)
              = match content with Some d => PyDict.keys d | None => [] end).
  { change (h ++ ToolMessage content call_id :: tail)
      with (h ++ [ToolMessage content call_id] ++ tail).
    rewrite app_assoc, (extract_queries_skip _ _ Htail), extract_queries_snoc.
    reflexivity. }
  split; [exact H|]. split; [exact H|].
  apply (extract_queries_skip [] tail Htail).
Qed.

Lemma newest_tool_message_decides_witness :
  Forall (fun msg => is_tool_message msg = false)
    [Sample.structured "ReviseAnswer" "" [] []]
  /\ ReflexionAgent.extract_latest_queries_from_tools
       (Sample.revised_once ++ ToolMessage None None
          :: [Sample.structured "ReviseAnswer" "" [] []]) = [].
Proof.
  assert (H : Forall (fun msg => is_tool_message msg = false)
                [Sample.structured "ReviseAnswer" "" [] []])
    by (repeat constructor).
  split; [exact H|].
  exact (proj1 (newest_tool_message_decides Sample.revised_once _ None None H)).
Defined.

(** ** Stripping *)

Section StripFacts.

Variable p : ascii -> bool.

Lemma lstrip_by_split (s : string) :
  exists pre, s = pre +:+ PyStr.lstrip_by p s /\ PyStr.all_in p pre = true.
Proof.
  induction s as [|c s (pre & Hs & Hpre)]; simpl.
  - exists EmptyString. split; reflexivity.
  - destruct (p c) eqn:Hc.
    + exists (String c pre). split.
      * change (String c s = String c (pre +:+ PyStr.lstrip_by p s)).
        f_equal. exact Hs.
      * simpl. now rewrite Hc, Hpre.
    + exists EmptyString. split; reflexivity.
Qed.

Lemma rstrip_by_split (s : string) :
  exists post, s = PyStr.rstrip_by p s +:+ post /\ PyStr.all_in p post = true.
Proof.
  induction s as [|c s (post & Hs & Hpost)]; simpl.
  - exists EmptyString. split; reflexivity.
  - destruct (PyStr.rstrip_by p s) as [|c' kept] eqn:Hr.
    + change (s = post) in Hs. subst s. destruct (p c) eqn:Hc.
      * exists (String c post). split; [reflexivity|]. simpl. now rewrite Hc, Hpost.
      * exists post. split; [reflexivity | exact Hpost].
    + exists post. split; [|exact Hpost].
      change (String c s = String c (String c' kept +:+ post)). f_equal. exact Hs.
Qed.

(** What [lstrip] returns is empty or begins with a character outside
    [p]: stripping it again changes nothing. *)
Lemma lstrip_by_clean (s : string) :
  PyStr.lstrip_by p (PyStr.lstrip_by p s) = PyStr.lstrip_by p s.
Proof.
  induction s as [|c s IH]; simpl; [reflexivity|].
  destruct (p c) eqn:Hc; [exact IH|]. simpl. now rewrite Hc.
Qed.

Lemma rstrip_by_idem (s : string) :
  PyStr.rstrip_by p (PyStr.rstrip_by p s) = PyStr.rstrip_by p s.
Proof.
  induction s as [|c s IH]; simpl; [reflexivity|].
  destruct (PyStr.rstrip_by p s) as [|c' kept] eqn:Hr.
  - destruct (p c) eqn:Hc; simpl; [reflexivity | now rewrite Hc].
  - change (PyStr.rstrip_by p (String c (String c' kept)))
      with (match PyStr.rstrip_by p (String c' kept) with
            | EmptyString => if p c then EmptyString else String c EmptyString
            | String a b => String c (String a b)
            end).
    now rewrite IH.
Qed.

Lemma lstrip_by_length (s : string) :
  (String.length (PyStr.lstrip_by p s) <= String.length s)%nat.
Proof.
  induction s as [|c s IH]; simpl; [lia|]. destruct (p c); simpl; lia.
Qed.

Lemma rstrip_keeps_clean_start (s : string) :
  PyStr.lstrip_by p s = s ->
  PyStr.lstrip_by p (PyStr.rstrip_by p s) = PyStr.rstrip_by p s.
Proof.
  destruct s as [|c s]; [reflexivity|]. simpl.
  destruct (p c) eqn:Hc.
  - intros H. exfalso. pose proof (lstrip_by_length s) as Hlen.
    rewrite H in Hlen. simpl in Hlen. lia.
  - intros _. destruct (PyStr.rstrip_by p s); simpl; now rewrite Hc.
Qed.

Lemma strip_by_idem (s : string) :
  PyStr.rstrip_by p (PyStr.lstrip_by p (PyStr.rstrip_by p (PyStr.lstrip_by p s)))
  = PyStr.rstrip_by p (PyStr.lstrip_by p s).
Proof.
  rewrite (rstrip_keeps_clean_start _ (lstrip_by_clean s)). apply rstrip_by_idem.
Qed.

End StripFacts.

Lemma all_in_weaken (p q : ascii -> bool) (s : string) :
  (forall c, p c = true -> q c = true) ->
  PyStr.all_in p s = true -> PyStr.all_in q s = true.
Proof.
  intros Hpq. induction s as [|c s IH]; simpl; [reflexivity|].
  intros H. apply andb_prop in H as [Hc Hs]. now rewrite (Hpq c Hc), IH.
Qed.

Lemma append_assoc (a b c : string) : (a +:+ b) +:+ c = a +:+ (b +:+ c).
Proof.
  induction a as [|x a IH]; [reflexivity|].
  change (String x ((a +:+ b) +:+ c) = String x (a +:+ (b +:+ c))). now rewrite IH.
Qed.

Lemma all_in_app (p : ascii -> bool) (s t : string) :
  PyStr.all_in p (s +:+ t) = PyStr.all_in p s && PyStr.all_in p t.
Proof.
  induction s as [|c s IH]; [reflexivity|].
  change (p c && PyStr.all_in p (s +:+ t) = p c && PyStr.all_in p s && PyStr.all_in p t).
  now rewrite IH, andb_assoc.
Qed.

Lemma strip_by_split (p q : ascii -> bool) (s : string) :
  (forall c, p c = true -> q c = true) ->
  exists pre post,
    s = pre +:+ PyStr.rstrip_by p (PyStr.lstrip_by p s) +:+ post
    /\ PyStr.all_in q pre = true /\ PyStr.all_in q post = true.
Proof.
  intros Hpq.
  destruct (lstrip_by_split p s) as (pre & Hs & Hpre).
  destruct (rstrip_by_split p (PyStr.lstrip_by p s)) as (post & Hl & Hpost).
  exists pre, post. split; [|split; eapply all_in_weaken; eassumption].
  rewrite Hs at 1. now rewrite Hl at 1.
Qed.

(** [str.strip] twice is [str.strip] once. *)
Lemma strip_idem (s : string) : PyStr.strip (PyStr.strip s) = PyStr.strip s.
Proof. apply strip_by_idem. Qed.

(** X8: [_clean_query] only removes characters from the two ends of the
    text of the query, and what it removes is whitespace, commas and
    quotes: the text is the cleaned query between two runs of such
    characters, so nothing inside a query is ever altered. *)
Theorem clean_query_trims_the_ends (q : pyval) :
  exists pre post,
    py_str q = pre +:+ ExecuteTools._clean_query q +:+ post
    /\ PyStr.all_in (fun c => PyStr.isspace c
                              || PyStr.mem c ("," +:+ ExecuteTools.dquote +:+ "'")) pre = true
    /\ PyStr.all_in (fun c => PyStr.isspace c
                              || PyStr.mem c ("," +:+ ExecuteTools.dquote +:+ "'")) post = true.
Proof.
  set (junk := fun c => PyStr.isspace c
                        || PyStr.mem c ("," +:+ ExecuteTools.dquote +:+ "'")).
  unfold ExecuteTools._clean_query, PyStr.strip_chars, PyStr.strip.
  set (s0 := py_str q).
  set (s1 := PyStr.rstrip_by PyStr.isspace (PyStr.lstrip_by PyStr.isspace s0)).
  set (s2 := PyStr.rstrip_by (fun c => PyStr.mem c ",")
               (PyStr.lstrip_by (fun c => PyStr.mem c ",") s1)).
  set (s3 := PyStr.rstrip_by (fun c => PyStr.mem c ExecuteTools.dquote)
               (PyStr.lstrip_by (fun c => PyStr.mem c ExecuteTools.dquote) s2)).
  destruct (strip_by_split PyStr.isspace junk s0) as (a1 & b1 & H1 & Ha1 & Hb1).
  { intros c Hc. unfold junk. now rewrite Hc. }
  destruct (strip_by_split (fun c => PyStr.mem c ",") junk s1) as (a2 & b2 & H2 & Ha2 & Hb2).
  { intros c Hc. unfold junk. simpl in *.
    destruct (Ascii.eqb c ","); [apply orb_true_r | discriminate]. }
  destruct (strip_by_split (fun c => PyStr.mem c ExecuteTools.dquote) junk s2)
    as (a3 & b3 & H3 & Ha3 & Hb3).
  { intros c Hc. unfold junk. simpl in *.
    destruct (Ascii.eqb c "034"); [|discriminate].
    destruct (Ascii.eqb c ","); apply orb_true_r. }
  destruct (strip_by_split (fun c => PyStr.mem c "'") junk s3) as (a4 & b4 & H4 & Ha4 & Hb4).
  { intros c Hc. unfold junk. simpl in *.
    destruct (Ascii.eqb c "'"); [|discriminate].
    destruct (Ascii.eqb c ","), (Ascii.eqb c "034"); apply orb_true_r. }
  fold s1 in H1. fold s2 in H2. fold s3 in H3.
  exists (a1 +:+ a2 +:+ a3 +:+ a4), (b4 +:+ b3 +:+ b2 +:+ b1).
  split.
  - rewrite H1 at 1. rewrite H2 at 1. rewrite H3 at 1. rewrite H4 at 1.
    rewrite !append_assoc. reflexivity.
  - rewrite !all_in_app, Ha1, Ha2, Ha3, Ha4, Hb1, Hb2, Hb3, Hb4. split; reflexivity.
Qed.

(** ** One search and the seen set *)

Section SearchFacts.

Context {E : Type}.
Variable repr : E -> string.
Variable tavily_invoke : string -> E + option (list search_item).
Variable validation_error : E.

#[local] Abbreviation search_query := (ExecuteTools.search_query repr tavily_invoke).
#[local] Abbreviation query_loop := (ExecuteTools.query_loop repr tavily_invoke).
#[local] Abbreviation tool_call_loop :=
  (ExecuteTools.tool_call_loop repr tavily_invoke validation_error).
#[local] Abbreviation execute_tools :=
  (ExecuteTools.execute_tools repr tavily_invoke validation_error).

(** When every URL of [raw] is already in the set, the loop keeps nothing
    and leaves the set alone. *)
Lemma item_loop_all_seen (raw : list search_item) (seen : gset string) :
  (forall item, item ∈ raw ->
     ExecuteTools.url_of item = EmptyString \/ ExecuteTools.url_of item ∈ seen) ->
  ExecuteTools.item_loop raw [] seen = ([], seen).
Proof.
  induction raw as [|item raw IH]; intros Hall; [reflexivity|]. simpl.
  destruct (accept_cases (ExecuteTools.url_of item) seen)
    as [[_ [Hne Hnew]] | [-> _]].
  - destruct (Hall item) as [H | H]; [left | contradiction | contradiction].
  - apply IH. intros item' Hin. apply Hall. now right.
Qed.

Lemma item_loop_grows (raw : list search_item) (seen : gset string) :
  seen ⊆ (ExecuteTools.item_loop raw [] seen).2.
Proof.
  intros u Hu. pose proof (item_loop_spec raw seen) as Hspec.
  destruct (ExecuteTools.item_loop raw [] seen) as [c s']. simpl.
  apply Hspec. auto.
Qed.

(** The URLs that a search stores: distinct, non-empty, stripped, not in
    the set before the search and in it afterwards. *)
Lemma search_query_urls (seen : gset string) (k : string) :
  exists v seen',
    search_query k seen = (inr v, seen')
    /\ seen ⊆ seen'
    /\ NoDup (ExecuteTools.value_urls v)
    /\ forall u, u ∈ ExecuteTools.value_urls v ->
         u <> EmptyString /\ PyStr.strip u = u /\ (u ∉ seen) /\ (u ∈ seen').
Proof.
  rewrite search_query_run. destruct (tavily_invoke k) as [e | raw].
  - exists (ErrorRecord (repr e)), seen. split; [reflexivity|]. split; [reflexivity|].
    split; [constructor|]. intros u Hu. inversion Hu.
  - pose proof (item_loop_spec (default [] raw) seen) as Hspec.
    destruct (ExecuteTools.item_loop (default [] raw) [] seen) as [compact seen'].
    destruct Hspec as (Hsub & Hnd & Hfresh & Hseen). simpl.
    exists (Results (take 3 compact)), seen'. split; [reflexivity|].
    split; [intros u Hu; apply Hseen; auto|].
    assert (Hsl : map url (take 3 compact) `sublist_of` urls compact).
    { unfold urls. rewrite <- (take_drop 3 compact) at 2. rewrite map_app.
      apply sublist_inserts_r. reflexivity. }
    split; [eapply sublist_NoDup; eassumption|].
    intros u Hu. eapply elem_of_sublist in Hu; [|exact Hsl].
    destruct (Hfresh u Hu) as [Hne Hnew].
    split; [exact Hne|]. split; [|split; [exact Hnew | apply Hseen; auto]].
    apply elem_of_map in Hu as (r & -> & Hr).
    eapply elem_of_sublist in Hr; [|exact Hsub].
    apply elem_of_map in Hr as (item & -> & _). apply strip_idem.
Qed.

Lemma mapping_urls_set (k : string) (v : query_value) (d : PyDict.t query_value) u :
  u ∈ ExecuteTools.mapping_urls (PyDict.set k v d) ->
  u ∈ ExecuteTools.value_urls v \/ u ∈ ExecuteTools.mapping_urls d.
Proof.
  unfold ExecuteTools.mapping_urls.
  induction d as [|[k' v'] d IH]; simpl.
  - rewrite app_nil_r. auto.
  - destruct (String.eqb k k'); simpl; rewrite !elem_of_app.
    + intros [H | H]; auto.
    + intros [H | H]; [auto|]. apply IH in H as [H | H]; auto.
Qed.

Lemma mapping_urls_set_NoDup (k : string) (v : query_value) (d : PyDict.t query_value) :
  NoDup (ExecuteTools.mapping_urls d) ->
  NoDup (ExecuteTools.value_urls v) ->
  (forall u, u ∈ ExecuteTools.value_urls v -> u ∉ ExecuteTools.mapping_urls d) ->
  NoDup (ExecuteTools.mapping_urls (PyDict.set k v d)).
Proof.
  induction d as [|[k' v'] d IH]; intros Hd Hv Hfresh.
  - unfold ExecuteTools.mapping_urls. simpl. now rewrite app_nil_r.
  - change (ExecuteTools.mapping_urls ((k', v') :: d))
      with (ExecuteTools.value_urls v' ++ ExecuteTools.mapping_urls d) in *.
    apply NoDup_app in Hd as (Hv' & Hdisj & Hd). simpl.
    destruct (String.eqb k k').
    + change (NoDup (ExecuteTools.value_urls v ++ ExecuteTools.mapping_urls d)).
      apply NoDup_app. split; [exact Hv|]. split; [|exact Hd].
      intros u Hu Hin. apply (Hfresh u Hu), elem_of_app. auto.
    + change (NoDup (ExecuteTools.value_urls v'
                     ++ ExecuteTools.mapping_urls (PyDict.set k v d))).
      apply NoDup_app. split; [exact Hv'|]. split.
      * intros u Hu Hin. apply mapping_urls_set in Hin as [Hin | Hin].
        -- apply (Hfresh u Hin), elem_of_app. auto.
        -- exact (Hdisj u Hu Hin).
      * apply IH; [exact Hd | exact Hv|].
        intros u Hu Hin. apply (Hfresh u Hu), elem_of_app. auto.
Qed.

Lemma query_loop_urls (seen0 : gset string) (qs : list pyval) :
  forall d seen, seen0 ⊆ seen ->
    ExecuteTools.shown_once seen0 seen (ExecuteTools.mapping_urls d) ->
    exists d' seen',
      query_loop qs d seen = (inr d', seen')
      /\ seen ⊆ seen'
      /\ ExecuteTools.shown_once seen0 seen' (ExecuteTools.mapping_urls d').
Proof.
  induction qs as [|q qs IH]; intros d seen Hsub Hd; simpl.
  - exists d, seen. split; [reflexivity|]. split; [reflexivity | exact Hd].
  - destruct (String.eqb (ExecuteTools._clean_query q) EmptyString);
      [now apply IH|].
    destruct (search_query_urls seen (ExecuteTools._clean_query q))
      as (v & seen1 & Hrun & Hsub1 & Hnd & Hv).
    unfold mbind, ExecuteTools.M_bind. rewrite Hrun.
    destruct Hd as [Hdnd Hdall].
    destruct (IH (PyDict.set (ExecuteTools._clean_query q) v d) seen1)
      as (d' & seen' & Hloop & Hsub' & Hd').
    + etransitivity; eassumption.
    + split.
      * apply mapping_urls_set_NoDup; [exact Hdnd | exact Hnd|].
        intros u Hu Hin. destruct (Hv u Hu) as (_ & _ & Hnew & _).
        apply Hnew. now apply Hdall.
      * intros u Hu. apply mapping_urls_set in Hu as [Hu | Hu].
        -- destruct (Hv u Hu) as (H1 & H2 & H3 & H4).
           split; [exact H1|]. split; [exact H2|]. split; [|exact H4].
           intros Hin. apply H3, Hsub, Hin.
        -- destruct (Hdall u Hu) as (H1 & H2 & H3 & H4).
           split; [exact H1|]. split; [exact H2|]. split; [exact H3|].
           apply Hsub1, H4.
    + exists d', seen'. split; [exact Hloop|]. split; [|exact Hd'].
      etransitivity; eassumption.
Qed.

Lemma tool_call_loop_urls (tcs : list tool_call) :
  forall acc seen,
    exists out seen',
      tool_call_loop tcs acc seen = (out, seen')
      /\ seen ⊆ seen'
      /\ forall res, out = inr res ->
           exists msgs, res = acc ++ msgs
             /\ ExecuteTools.shown_once seen seen' (ExecuteTools.emitted_urls msgs).
Proof.
  induction tcs as [|tc tcs IH]; intros acc seen; simpl.
  - exists (inr acc), seen. split; [reflexivity|]. split; [reflexivity|].
    intros res [= <-]. exists []. rewrite app_nil_r. split; [reflexivity|].
    split; [constructor|]. intros u Hu. inversion Hu.
  - destruct (name_in ExecuteTools.recognized tc); simpl; [|apply IH].
    destruct (query_loop_urls seen
                (default [] (search_queries (default no_args (args tc)))) [] seen)
      as (d & seen1 & Hloop & Hsub1 & Hdnd & Hdall); [reflexivity | |].
    { split; [constructor|]. intros u Hu. inversion Hu. }
    unfold mbind, ExecuteTools.M_bind. rewrite Hloop.
    unfold ExecuteTools.new_tool_message. destruct (id tc) as [i|].
    + destruct (IH (acc ++ [ToolMessage (Some d) (Some i)]) seen1)
        as (out & seen' & Hrest & Hsub' & Hout).
      exists out, seen'. split; [exact Hrest|].
      split; [etransitivity; eassumption|].
      intros res Hres. destruct (Hout res Hres) as (msgs & -> & Hnd & Hall).
      exists (ToolMessage (Some d) (Some i) :: msgs).
      split; [now rewrite <- app_assoc|].
      change (ExecuteTools.emitted_urls (ToolMessage (Some d) (Some i) :: msgs))
        with (ExecuteTools.mapping_urls d ++ ExecuteTools.emitted_urls msgs).
      split.
      * apply NoDup_app. split; [exact Hdnd|]. split; [|exact Hnd].
        intros u Hu Hin. destruct (Hall u Hin) as (_ & _ & Hnew & _).
        apply Hnew. now apply Hdall.
      * intros u Hu. apply elem_of_app in Hu as [Hu | Hu].
        -- destruct (Hdall u Hu) as (H1 & H2 & H3 & H4).
           split; [exact H1|]. split; [exact H2|]. split; [exact H3|]. apply Hsub', H4.
        -- destruct (Hall u Hu) as (H1 & H2 & H3 & H4).
           split; [exact H1|]. split; [exact H2|]. split; [|exact H4].
           intros Hin. apply H3, Hsub1, Hin.
    + exists (inl validation_error), seen1. split; [reflexivity|].
      split; [exact Hsub1|]. intros res H. discriminate.
Qed.

(** Whatever a call of [execute_tools] hands back, it shows each URL
    once. *)
Lemma execute_tools_urls (state : list message) (seen : gset string) :
  exists out seen',
    execute_tools state seen = (out, seen')
    /\ seen ⊆ seen'
    /\ forall msgs, out = inr msgs ->
         ExecuteTools.shown_once seen seen' (ExecuteTools.emitted_urls msgs).
Proof.
  unfold ExecuteTools.execute_tools.
  assert (Hnone : exists out seen',
             (@inr E (list message) [], seen) = (out, seen')
             /\ seen ⊆ seen'
             /\ forall msgs, out = inr msgs ->
                  ExecuteTools.shown_once seen seen' (ExecuteTools.emitted_urls msgs)).
  { exists (inr []), seen. split; [reflexivity|]. split; [reflexivity|].
    intros msgs [= <-]. split; [constructor|]. intros u Hu. inversion Hu. }
  destruct (last state) as [[c | [|tc tcs] | c i]|]; try exact Hnone.
  destruct (tool_call_loop_urls (tc :: tcs) [] seen)
    as (out & seen' & Hrun & Hsub & Hout).
  exists out, seen'. split; [exact Hrun|]. split; [exact Hsub|].
  intros msgs Hmsgs. destruct (Hout msgs Hmsgs) as (msgs' & Heq & Hshown).
  simpl in Heq. now subst msgs'.
Qed.

Lemma tool_call_loop_none (tcs : list tool_call) acc (seen : gset string) :
  List.filter (name_in ExecuteTools.recognized) tcs = [] ->
  tool_call_loop tcs acc seen = (inr acc, seen).
Proof.
  induction tcs as [|tc tcs IH]; simpl; [reflexivity|].
  destruct (name_in ExecuteTools.recognized tc); [discriminate | exact IH].
Qed.

End SearchFacts.

(** X9: when every recognised call of the last message has its
    identifier, [execute_tools] returns one tool message per recognised
    call, in order and under the identifier of its call.  When there is
    no recognised call (an empty history, a last message that is not an
    AI message, or one whose calls all have other names) it returns no
    message and leaves the seen set as it was, without calling the search
    tool.  When a recognised call has no identifier it returns nothing:
    the [ToolMessage] constructor raises. *)
Theorem one_reply_per_recognised_call {E : Type} (repr : E -> string)
    (tavily_invoke : string -> E + option (list search_item)) (validation_error : E)
    (state : list message) (seen : gset string) :
  (ExecuteTools.identified state ->
   exists msgs seen',
     ExecuteTools.execute_tools repr tavily_invoke validation_error state seen
     = (inr msgs, seen')
     /\ map is_tool_message msgs = map (fun _ => true) (ExecuteTools.recognized_calls state)
     /\ Forall2 (fun tc msg => exists d, msg = ToolMessage (Some d) (id tc))
          (ExecuteTools.recognized_calls state) msgs)
  /\ (ExecuteTools.recognized_calls state = [] ->
      forall tavily',
        ExecuteTools.execute_tools repr tavily' validation_error state seen = (inr [], seen))
  /\ (~ ExecuteTools.identified state ->
      exists seen',
        ExecuteTools.execute_tools repr tavily_invoke validation_error state seen
        = (inl validation_error, seen')).
Proof.
  split; [|split].
  - intros Hid.
    destruct (execute_tools_spec repr tavily_invoke validation_error state seen Hid)
      as (msgs & seen' & Hrun & _ & Hreplies & _).
    exists msgs, seen'. split; [exact Hrun|]. split.
    + clear Hrun. induction Hreplies as [|tc msg tcs msgs' (d & -> & _) _ IH];
        [reflexivity | simpl; now rewrite IH].
    + eapply Forall2_impl; [exact Hreplies|].
      intros tc msg (d & -> & _). now exists d.
  - unfold ExecuteTools.recognized_calls, ExecuteTools.execute_tools.
    intros Hnone tavily'.
    destruct (last state) as [[c | [|tc tcs] | c i]|]; try reflexivity.
    now apply tool_call_loop_none.
  - intros Hnid.
    destruct (execute_tools_run repr tavily_invoke validation_error state seen)
      as (out & seen' & Hrun & _ & _ & Hout).
    destruct out as [e | msgs].
    + destruct Hout as [-> _]. now exists seen'.
    + destruct Hout as [_ Hid]. contradiction.
Qed.

(** X10: a search that returns registers every non-empty stripped URL it
    was offered, stored or not: afterwards the seen set is what it was
    plus exactly those URLs; a search that raises leaves the set as it
    was. *)
Theorem search_registers_every_offer {E : Type} (repr : E -> string)
    (tavily_invoke : string -> E + option (list search_item))
    (query : string) (seen : gset string) :
  match tavily_invoke query with
  | inl e =>
      ExecuteTools.search_query repr tavily_invoke query seen
      = (inr (ErrorRecord (repr e)), seen)
  | inr raw =>
      exists v seen',
        ExecuteTools.search_query repr tavily_invoke query seen = (inr v, seen')
        /\ forall u, u ∈ seen' <->
             u ∈ seen
             \/ (u <> EmptyString
                 /\ exists item, item ∈ default [] raw /\ ExecuteTools.url_of item = u)
  end.
Proof.
  rewrite search_query_run. destruct (tavily_invoke query) as [e | raw]; [reflexivity|].
  pose proof (item_loop_spec (default [] raw) seen) as Hspec.
  pose proof (fun item => item_loop_covers (default [] raw) seen item) as Hcov.
  destruct (ExecuteTools.item_loop (default [] raw) [] seen) as [compact seen'].
  destruct Hspec as (Hsub & _ & Hfresh & Hseen). simpl in *.
  eexists _, _. split; [reflexivity|]. intros u. rewrite Hseen. split.
  - intros [Hu | Hu]; [auto|]. right. split; [apply (Hfresh u Hu)|].
    apply elem_of_map in Hu as (r & -> & Hr).
    eapply elem_of_sublist in Hr; [|exact Hsub].
    apply elem_of_map in Hr as (item & -> & Hitem). eauto.
  - intros [Hu | (Hne & item & Hitem & <-)]; [auto|].
    destruct (Hcov item Hitem) as [H | H]; [contradiction|].
    apply Hseen in H. exact H.
Qed.

(** X11: once a search of a query has returned, searching the same query
    again with a seen set that has not been cleared stores an empty list
    and leaves the set as it is. *)
Theorem repeated_search_finds_nothing {E : Type} (repr : E -> string)
    (tavily_invoke : string -> E + option (list search_item))
    (query : string) (raw : option (list search_item)) (seen later : gset string) :
  tavily_invoke query = inr raw ->
  (ExecuteTools.search_query repr tavily_invoke query seen).2 ⊆ later ->
  ExecuteTools.search_query repr tavily_invoke query later = (inr (Results []), later).
Proof.
  intros Hraw. rewrite !search_query_run, Hraw. simpl. intros Hlater.
  rewrite item_loop_all_seen; [reflexivity|].
  intros item Hitem.
  destruct (item_loop_covers (default [] raw) seen item Hitem) as [H | H]; auto.
Qed.

Lemma repeated_search_finds_nothing_witness :
  Sample.tavily "ai" = inr (Some [Sample.item "https://a.example/1";
                                  Sample.item " https://a.example/2 ";
                                  Sample.item "https://a.example/3";
                                  Sample.item "https://a.example/4"])
  /\ ExecuteTools.search_query Sample.repr Sample.tavily "ai"
       (ExecuteTools.search_query Sample.repr Sample.tavily "ai" ∅).2
     = (inr (Results []), (ExecuteTools.search_query Sample.repr Sample.tavily "ai" ∅).2).
Proof.
  split; [reflexivity|].
  apply (repeated_search_finds_nothing Sample.repr Sample.tavily "ai" _ ∅ _ eq_refl).
  reflexivity.
Defined.

(** ** A query repeated within one call *)

Section RepeatedQuery.

Context {E : Type}.
Variable repr : E -> string.
Variable tavily_invoke : string -> E + option (list search_item).
Variable validation_error : E.
Variable k : string.
Variable raw : option (list search_item).
Hypothesis Hraw : tavily_invoke k = inr raw.

#[local] Abbreviation query_loop := (ExecuteTools.query_loop repr tavily_invoke).

Lemma cleaned_cons (q : pyval) (qs : list pyval) :
  ExecuteTools.cleaned (q :: qs)
  = if String.eqb (ExecuteTools._clean_query q) EmptyString then ExecuteTools.cleaned qs
    else ExecuteTools._clean_query q :: ExecuteTools.cleaned qs.
Proof.
  unfold ExecuteTools.cleaned. simpl.
  now destruct (String.eqb (ExecuteTools._clean_query q) EmptyString).
Qed.

(** A query that is not searched keeps its entry. *)
Lemma query_loop_get_other (k' : string) (qs : list pyval) :
  forall d seen d' seen',
    k' ∉ ExecuteTools.cleaned qs ->
    query_loop qs d seen = (inr d', seen') ->
    PyDict.get k' d' = PyDict.get k' d.
Proof.
  induction qs as [|q qs IH]; intros d seen d' seen' Hnot; simpl.
  - now intros [= <- <-].
  - rewrite cleaned_cons in Hnot.
    destruct (String.eqb (ExecuteTools._clean_query q) EmptyString); [now apply IH|].
    apply not_elem_of_cons in Hnot as [Hne Hnot].
    destruct (search_query_urls repr tavily_invoke seen (ExecuteTools._clean_query q))
      as (v & seen1 & Hrun & _).
    unfold mbind, ExecuteTools.M_bind. rewrite Hrun. intros Hloop.
    rewrite (IH _ _ _ _ Hnot Hloop). apply dict_get_set_ne. congruence.
Qed.

(** Every URL that the search of [k] offers is in [seen]. *)
#[local] Abbreviation covered seen :=
  (forall item, item ∈ default [] raw ->
     ExecuteTools.url_of item = EmptyString \/ ExecuteTools.url_of item ∈ seen).

Lemma query_loop_covered (qs : list pyval) :
  forall d (seen : gset string) d' seen',
    covered seen -> k ∈ ExecuteTools.cleaned qs ->
    query_loop qs d seen = (inr d', seen') ->
    PyDict.get k d' = Some (Results []).
Proof.
  induction qs as [|q qs IH]; intros d seen d' seen' Hcov Hin; simpl.
  - inversion Hin.
  - rewrite cleaned_cons in Hin.
    destruct (String.eqb (ExecuteTools._clean_query q) EmptyString); [now apply IH|].
    unfold mbind, ExecuteTools.M_bind.
    destruct (decide (ExecuteTools._clean_query q = k)) as [-> | Hne].
    + rewrite search_query_run, Hraw, (item_loop_all_seen _ _ Hcov). simpl.
      intros Hloop. destruct (decide (k ∈ ExecuteTools.cleaned qs)) as [Hk | Hk].
      * eapply IH; eassumption.
      * rewrite (query_loop_get_other _ _ _ _ _ _ Hk Hloop). apply dict_get_set_eq.
    + apply elem_of_cons in Hin as [Hin | Hin]; [congruence|].
      destruct (search_query_urls repr tavily_invoke seen (ExecuteTools._clean_query q))
        as (v & seen1 & Hrun & Hsub & _).
      rewrite Hrun. apply IH; [|exact Hin].
      intros item Hitem. destruct (Hcov item Hitem); auto.
Qed.

Lemma query_loop_twice (qs : list pyval) :
  forall d (seen : gset string) d' seen',
    (2 <= count_occ string_dec (ExecuteTools.cleaned qs) k)%nat ->
    query_loop qs d seen = (inr d', seen') ->
    PyDict.get k d' = Some (Results []).
Proof.
  induction qs as [|q qs IH]; intros d seen d' seen' Hcount; simpl.
  - simpl in Hcount. lia.
  - rewrite cleaned_cons in Hcount.
    destruct (String.eqb (ExecuteTools._clean_query q) EmptyString); [now apply IH|].
    unfold mbind, ExecuteTools.M_bind. simpl in Hcount.
    destruct (string_dec (ExecuteTools._clean_query q) k) as [-> | Hne].
    + rewrite search_query_run, Hraw. simpl.
      apply query_loop_covered.
      * intros item Hitem. apply item_loop_covers, Hitem.
      * apply list_elem_of_In, (count_occ_In string_dec). lia.
    + destruct (search_query_urls repr tavily_invoke seen (ExecuteTools._clean_query q))
        as (v & seen1 & Hrun & _).
      rewrite Hrun. now apply IH.
Qed.

End RepeatedQuery.

(** X12: when the queries of one call contain the same cleaned query
    twice and its search returns, the mapping of the reply ends with an
    empty list under that query: the second search finds every URL
    already seen and its empty result overwrites the records of the
    first. *)
Theorem repeated_query_ends_empty {E : Type} (repr : E -> string)
    (tavily_invoke : string -> E + option (list search_item))
    (search_queries : list pyval) (query : string) (raw : option (list search_item))
    (seen : gset string) :
  tavily_invoke query = inr raw ->
  (2 <= count_occ string_dec (ExecuteTools.cleaned search_queries) query)%nat ->
  exists query_results seen',
    ExecuteTools.query_loop repr tavily_invoke search_queries [] seen
    = (inr query_results, seen')
    /\ PyDict.get query query_results = Some (Results []).
Proof.
  intros Hraw Hcount.
  destruct (query_loop_spec repr tavily_invoke seen search_queries [] seen)
    as (d' & seen' & Hloop & _); [reflexivity | |].
  { intros k' v H. inversion H. }
  exists d', seen'. split; [exact Hloop|].
  eapply query_loop_twice; eassumption.
Qed.

Lemma repeated_query_ends_empty_witness :
  Sample.tavily "ai" = inr (Some [Sample.item "https://a.example/1";
                                  Sample.item " https://a.example/2 ";
                                  Sample.item "https://a.example/3";
                                  Sample.item "https://a.example/4"])
  /\ (2 <= count_occ string_dec
             (ExecuteTools.cleaned [PStr "ai"; PStr " 'ai', "]) "ai"%string)%nat
  /\ exists query_results seen',
       ExecuteTools.query_loop Sample.repr Sample.tavily [PStr "ai"; PStr " 'ai', "] [] ∅
       = (inr query_results, seen')
       /\ PyDict.get "ai" query_results = Some (Results []).
Proof.
  assert (Hc : (2 <= count_occ string_dec
                      (ExecuteTools.cleaned [PStr "ai"; PStr " 'ai', "]) "ai"%string)%nat)
    by (vm_compute; lia).
  split; [reflexivity|]. split; [exact Hc|].
  exact (repeated_query_ends_empty Sample.repr Sample.tavily _ "ai" _ ∅ eq_refl Hc).
Defined.

(** ** No URL is handed out twice *)

(** X13: when every recognised call has its identifier, the URLs that
    one call of [execute_tools] hands to the caller, over all its
    messages and queries, are pairwise distinct, non-empty and stripped of
    whitespace, were not in the seen set when the call began and are in
    it when the call returns. *)
Theorem replies_show_new_urls_once {E : Type} (repr : E -> string)
    (tavily_invoke : string -> E + option (list search_item)) (validation_error : E)
    (state : list message) (seen : gset string) :
  ExecuteTools.identified state ->
  exists msgs seen',
    ExecuteTools.execute_tools repr tavily_invoke validation_error state seen
    = (inr msgs, seen')
    /\ NoDup (ExecuteTools.emitted_urls msgs)
    /\ forall u, u ∈ ExecuteTools.emitted_urls msgs ->
         u <> EmptyString /\ PyStr.strip u = u /\ (u ∉ seen) /\ (u ∈ seen').
Proof.
  intros Hid.
  destruct (execute_tools_spec repr tavily_invoke validation_error state seen Hid)
    as (msgs & seen' & Hrun & _).
  destruct (execute_tools_urls repr tavily_invoke validation_error state seen)
    as (out & seen'' & Hrun' & _ & Hout).
  rewrite Hrun in Hrun'. injection Hrun' as <- <-.
  destruct (Hout msgs eq_refl) as [Hnd Hall].
  exists msgs, seen'. auto.
Qed.

Lemma replies_show_new_urls_once_witness :
  ExecuteTools.identified Sample.drafted
  /\ exists msgs seen',
       ExecuteTools.execute_tools Sample.repr Sample.tavily Sample.validation_error
         Sample.drafted ∅ = (inr msgs, seen')
       /\ NoDup (ExecuteTools.emitted_urls msgs).
Proof.
  assert (Hid : ExecuteTools.identified Sample.drafted)
    by (repeat constructor; discriminate).
  split; [exact Hid|].
  destruct (replies_show_new_urls_once Sample.repr Sample.tavily Sample.validation_error
              Sample.drafted ∅ Hid)
    as (msgs & seen' & Hrun & Hnd & _).
  exists msgs, seen'. split; [exact Hrun | exact Hnd].
Defined.

Section SessionLog.

Context {E : Type}.
Variable repr : E -> string.
Variable tavily_invoke : string -> E + option (list search_item).
Variable validation_error : E.

Lemma session_log_snoc (ops : list ExecuteTools.session_op) (op : ExecuteTools.session_op) :
  ExecuteTools.session_log repr tavily_invoke validation_error (ops ++ [op])
  = ExecuteTools.session_step_log repr tavily_invoke validation_error
      (ExecuteTools.session_log repr tavily_invoke validation_error ops) op.
Proof. unfold ExecuteTools.session_log. now rewrite fold_left_app. Qed.

Lemma session_log_invariant (ops : list ExecuteTools.session_op) :
  (ExecuteTools.session_log repr tavily_invoke validation_error ops).1
  = ExecuteTools.session repr tavily_invoke validation_error ops
  /\ NoDup (ExecuteTools.session_log repr tavily_invoke validation_error ops).2
  /\ forall u, u ∈ (ExecuteTools.session_log repr tavily_invoke validation_error ops).2 ->
       u ∈ (ExecuteTools.session_log repr tavily_invoke validation_error ops).1.
Proof.
  induction ops as [|op ops (Hset & Hnd & Hin)] using rev_ind.
  - split; [reflexivity|]. split; [constructor|]. intros u Hu. inversion Hu.
  - rewrite session_log_snoc, session_snoc.
    destruct (ExecuteTools.session_log repr tavily_invoke validation_error ops) as [seen log].
    simpl in Hset, Hnd, Hin. subst seen. destruct op as [state|]; simpl.
    + destruct (execute_tools_urls repr tavily_invoke validation_error state
                  (ExecuteTools.session repr tavily_invoke validation_error ops))
        as (out & seen' & Hrun & Hsub & Hout).
      rewrite Hrun. destruct out as [e | msgs]; simpl.
      * split; [reflexivity|]. split; [exact Hnd|].
        intros u Hu. apply Hsub, Hin, Hu.
      * destruct (Hout msgs eq_refl) as [Hnew Hall].
        split; [reflexivity|]. split.
        -- apply NoDup_app. split; [exact Hnd|]. split; [|exact Hnew].
           intros u Hu Hu'. destruct (Hall u Hu') as (_ & _ & Hfresh & _).
           apply Hfresh, Hin, Hu.
        -- intros u Hu. apply elem_of_app in Hu as [Hu | Hu].
           ++ apply Hsub, Hin, Hu.
           ++ apply (Hall u Hu).
    + split; [reflexivity|]. split; [constructor|]. intros u Hu. inversion Hu.
Qed.

End SessionLog.

(** X14: over a whole session, between two resets of the seen set, no URL
    is handed to the caller twice, and every URL handed out is in the
    set. *)
Theorem no_url_handed_out_twice {E : Type} (repr : E -> string)
    (tavily_invoke : string -> E + option (list search_item)) (validation_error : E)
    (ops : list ExecuteTools.session_op) :
  NoDup (ExecuteTools.session_log repr tavily_invoke validation_error ops).2
  /\ (forall u, u ∈ (ExecuteTools.session_log repr tavily_invoke validation_error ops).2 ->
        u ∈ ExecuteTools.session repr tavily_invoke validation_error ops).
Proof.
  destruct (session_log_invariant repr tavily_invoke validation_error ops)
    as (Hset & Hnd & Hin).
  split; [exact Hnd|]. rewrite <- Hset. exact Hin.
Qed.

(** ** The queries a pass reports *)

Section ReportedQueries.

Context {E : Type}.
Variable repr : E -> string.
Variable tavily_invoke : string -> E + option (list search_item).
Variable validation_error : E.

Lemma dict_keys_set_NoDup {V} (k : string) (v : V) (d : PyDict.t V) :
  NoDup (PyDict.keys d) -> NoDup (PyDict.keys (PyDict.set k v d)).
Proof.
  intros Hd. rewrite dict_keys_set. destruct (bool_decide _) eqn:Hin; [exact Hd|].
  apply bool_decide_eq_false in Hin. apply NoDup_app. split; [exact Hd|].
  split; [|apply NoDup_singleton].
  intros u Hu Hu'. apply list_elem_of_singleton in Hu'. now subst.
Qed.

Lemma query_loop_keys_NoDup (qs : list pyval) :
  forall d (seen : gset string) d' seen',
    NoDup (PyDict.keys d) ->
    ExecuteTools.query_loop repr tavily_invoke qs d seen = (inr d', seen') ->
    NoDup (PyDict.keys d').
Proof.
  induction qs as [|q qs IH]; intros d seen d' seen' Hd; simpl.
  - now intros [= <- <-].
  - destruct (String.eqb (ExecuteTools._clean_query q) EmptyString); [now apply IH|].
    destruct (search_query_urls repr tavily_invoke seen (ExecuteTools._clean_query q))
      as (v & seen1 & Hrun & _).
    unfold mbind, ExecuteTools.M_bind. rewrite Hrun.
    apply IH. now apply dict_keys_set_NoDup.
Qed.

(** Every message that the call loop appends is a tool message whose
    mapping has distinct keys. *)
Lemma tool_call_loop_keys (tcs : list tool_call) :
  forall acc (seen : gset string) out seen',
    ExecuteTools.tool_call_loop repr tavily_invoke validation_error tcs acc seen
    = (inr out, seen') ->
    exists msgs,
      out = acc ++ msgs
      /\ Forall (fun msg => exists d i, msg = ToolMessage (Some d) i
                              /\ NoDup (PyDict.keys d)) msgs.
Proof.
  induction tcs as [|tc tcs IH]; intros acc seen out seen'; simpl.
  - intros [= <- <-]. exists []. now rewrite app_nil_r.
  - destruct (name_in ExecuteTools.recognized tc); simpl; [|apply IH].
    unfold mbind, ExecuteTools.M_bind.
    destruct (ExecuteTools.query_loop _ _ _ _ _) as [[e | d] seen1] eqn:Hloop;
      [discriminate|].
    unfold ExecuteTools.new_tool_message. destruct (id tc) as [i|]; [|discriminate].
    intros Hrest. apply IH in Hrest as (msgs & -> & Hall).
    exists (ToolMessage (Some d) (Some i) :: msgs). rewrite <- app_assoc.
    split; [reflexivity|]. constructor; [|exact Hall].
    exists d, (Some i). split; [reflexivity|].
    eapply query_loop_keys_NoDup; [|exact Hloop]. constructor.
Qed.

Lemma Forall2_last {A B} (P : A -> B -> Prop) (l : list A) (l' : list B) (x : A) :
  Forall2 P l l' -> last l = Some x ->
  exists pre y, l' = pre ++ [y] /\ P x y.
Proof.
  intros H. revert x. induction H as [|a b l l' Hab Hl IH]; intros x; [discriminate|].
  destruct l as [|a' l].
  - inversion Hl; subst. intros [= <-]. exists [], b. auto.
  - intros Hx. destruct (IH x Hx) as (pre & y & -> & Hy).
    exists (b :: pre), y. auto.
Qed.

End ReportedQueries.

(** X15: after a search pass that answers calls with identifiers and a
    revision, the query extractor reports the queries of the last
    recognised call of the message that was searched for: each of its
    cleaned, non-empty queries once.  When that message has no recognised
    call the pass appends no tool message and the extractor still reports
    the queries of the pass before. *)
Theorem pass_reports_its_queries {E : Type} (repr : E -> string)
    (tavily_invoke : string -> E + option (list search_item)) (validation_error : E)
    (state : list message) (seen : gset string) (revision : message) :
  is_tool_message revision = false ->
  ExecuteTools.identified state ->
  exists msgs seen',
    ExecuteTools.execute_tools repr tavily_invoke validation_error state seen
    = (inr msgs, seen')
    /\ match last (ExecuteTools.recognized_calls state) with
       | Some tc =>
           NoDup (ReflexionAgent.extract_latest_queries_from_tools
                    ((state ++ msgs) ++ [revision]))
           /\ forall k,
                k ∈ ReflexionAgent.extract_latest_queries_from_tools
                      ((state ++ msgs) ++ [revision])
                <-> k ∈ ExecuteTools.cleaned (ExecuteTools.queries_of tc)
       | None =>
           msgs = []
           /\ ReflexionAgent.extract_latest_queries_from_tools
                ((state ++ msgs) ++ [revision])
              = ReflexionAgent.extract_latest_queries_from_tools state
       end.
Proof.
  intros Hrev Hid.
  destruct (execute_tools_spec repr tavily_invoke validation_error state seen Hid)
    as (msgs & seen' & Hrun & _ & Hreplies & _).
  exists msgs, seen'. split; [exact Hrun|].
  assert (Hskip : Forall (fun msg => is_tool_message msg = false) [revision])
    by (constructor; [exact Hrev | constructor]).
  destruct (last (ExecuteTools.recognized_calls state)) as [tc|] eqn:Hlast.
  - destruct (Forall2_last _ _ _ _ Hreplies Hlast) as (pre & msg & -> & d & -> & _ & Hkeys).
    rewrite (extract_queries_skip _ _ Hskip), app_assoc, extract_queries_snoc.
    split; [|exact Hkeys].
    assert (Hk : exists msgs0,
               pre ++ [ToolMessage (Some d) (id tc)] = [] ++ msgs0
               /\ Forall (fun msg => exists d i, msg = ToolMessage (Some d) i
                                       /\ NoDup (PyDict.keys d)) msgs0).
    { unfold ExecuteTools.execute_tools in Hrun.
      destruct (last state) as [[c | [|tc' tcs] | c i]|];
        try (injection Hrun as Hrun _; destruct pre; discriminate).
      eapply tool_call_loop_keys. exact Hrun. }
    destruct Hk as (msgs0 & Heq & Hall). simpl in Heq. subst msgs0.
    apply Forall_app in Hall as [_ Hall]. apply Forall_inv in Hall.
    destruct Hall as (d0 & i0 & [= <- _] & Hnd). exact Hnd.
  - apply last_None in Hlast. rewrite Hlast in Hreplies. inversion Hreplies; subst.
    split; [reflexivity|]. rewrite app_nil_r. apply (extract_queries_skip _ _ Hskip).
Qed.

Lemma pass_reports_its_queries_witness :
  is_tool_message (Sample.revisor_chain []) = false
  /\ ExecuteTools.identified Sample.drafted
  /\ exists msgs seen',
       ExecuteTools.execute_tools Sample.repr Sample.tavily Sample.validation_error
         Sample.drafted ∅
       = (inr msgs, seen')
       /\ forall k,
            k ∈ ReflexionAgent.extract_latest_queries_from_tools
                  ((Sample.drafted ++ msgs) ++ [Sample.revisor_chain []])
            <-> k ∈ ExecuteTools.cleaned [PStr "ai"].
Proof.
  assert (Hid : ExecuteTools.identified Sample.drafted)
    by (repeat constructor; discriminate).
  split; [reflexivity|]. split; [exact Hid|].
  destruct (pass_reports_its_queries Sample.repr Sample.tavily Sample.validation_error
              Sample.drafted ∅ (Sample.revisor_chain []) eq_refl Hid)
    as (msgs & seen' & Hrun & Hq).
  exists msgs, seen'. split; [exact Hrun|]. exact (proj2 Hq).
Defined.

(** ** What a finished run reports *)

Section RunFacts.

Context {E : Type}.
Variable repr : E -> string.
Variable tavily_invoke : string -> E + option (list search_item).
Variable validation_error : E.
Variables first_responder_chain revisor_chain : list message -> message.
Context {B : Type}.
Variable decide : B -> list message -> route * B.

#[local] Abbreviation cycle :=
  (Session.cycle repr tavily_invoke validation_error revisor_chain decide).

(** A finished run only appended to the history it started from, ended
    on a revision, only added to the seen set, and its last controller
    call was made on the final history. *)
Lemma cycle_history fuel : forall state seen b messages seen' trace,
  cycle fuel state seen b = Session.Finished messages seen' trace ->
  exists h b_prev b_last,
    messages = h ++ [revisor_chain h]
    /\ state `prefix_of` h
    /\ seen ⊆ seen'
    /\ last trace = Some (END, b_last)
    /\ decide b_prev messages = (END, b_last).
Proof.
  induction fuel as [|fuel IH]; intros state seen b messages seen' trace; simpl;
    [discriminate|].
  destruct (execute_tools_run repr tavily_invoke validation_error state seen)
    as ([e | msgs] & seen1 & Hrun & Hsub & _); rewrite Hrun; [discriminate|].
  destruct (decide b ((state ++ msgs) ++ [revisor_chain (state ++ msgs)]))
    as [[|] b'] eqn:Hd.
  - intros [= <- <- <-]. exists (state ++ msgs), b, b'.
    split; [reflexivity|]. split; [now exists msgs|]. auto.
  - intros H. apply logged_finished in H as (rest & -> & H).
    apply IH in H as (h & b_prev & b_last & -> & [k ->] & Hsub' & Hlast & Hdec).
    exists (((state ++ msgs) ++ [revisor_chain (state ++ msgs)]) ++ k), b_prev, b_last.
    split; [reflexivity|]. split.
    + exists (msgs ++ [revisor_chain (state ++ msgs)] ++ k).
      now rewrite <- !app_assoc.
    + split; [etransitivity; eassumption|]. split; [|exact Hdec].
      destruct rest; [discriminate | exact Hlast].
Qed.

End RunFacts.

(** X16: a finished run of the graph only ever appended to its history,
    which still begins with the question and the draft and ends with a
    revision; it only added to the seen set; and the answer read from the
    final history is that of the last recognised call of that last
    revision, whatever the earlier revisions scored. *)
Theorem run_reports_the_last_revision {E B : Type} (repr : E -> string)
    (tavily_invoke : string -> E + option (list search_item)) (validation_error : E)
    (first_responder_chain revisor_chain : list message -> message)
    (decide : B -> list message -> route * B)
    (fuel : nat) (question : string) (seen seen' : gset string) (b : B)
    (messages : list message) (trace : list (route * B)) :
  Session.invoke repr tavily_invoke validation_error first_responder_chain revisor_chain decide
    fuel question seen b = Session.Finished messages seen' trace ->
  exists h,
    messages = h ++ [revisor_chain h]
    /\ [HumanMessage question; first_responder_chain [HumanMessage question]] `prefix_of` h
    /\ seen ⊆ seen'
    /\ forall tc,
         last (List.filter (name_in UiApp.default_names)
                 (msg_tool_calls (revisor_chain h))) = Some tc ->
         UiApp.extract_last_tool_answer messages UiApp.default_names
         = (answer (default no_args (args tc)),
            default [] (references (default no_args (args tc)))).
Proof.
  unfold Session.invoke. intros Hrun.
  apply cycle_history in Hrun as (h & _ & _ & -> & Hpre & Hsub & _).
  exists h. split; [reflexivity|]. split; [exact Hpre|]. split; [exact Hsub|].
  intros tc Htc. change UiApp.extract_last_tool_answer
    with ReflexionAgent.extract_last_tool_answer.
  now rewrite extract_answer_snoc, Htc.
Qed.

(** The sample run finishes. *)
Lemma sample_run_finishes :
  exists messages seen' trace,
    Session.invoke Sample.repr Sample.tavily Sample.validation_error Sample.first_responder_chain
      Sample.revisor_chain (UiApp.event_loop 2) 5 "How can a small business use AI?"
      ∅ UiApp.best_init = Session.Finished messages seen' trace.
Proof.
  unfold Session.invoke.
  assert (Hcap : forall b st, (2 < count_tool_visits st)%nat ->
                   (UiApp.event_loop 2 b st).1 = END)
    by (intros b st H; now rewrite ui_event_loop_cap).
  assert (Hrev : forall history, Session.actionable (Sample.revisor_chain history) = true)
    by reflexivity.
  assert (Hrevid : forall history, Session.with_ids (Sample.revisor_chain history) = true)
    by reflexivity.
  destruct (cycle_terminates Sample.repr Sample.tavily Sample.validation_error
              Sample.revisor_chain (UiApp.event_loop 2) 2 Hcap Hrev Hrevid 5
              ([HumanMessage "How can a small business use AI?"]
               ++ [Sample.first_responder_chain
                     [HumanMessage "How can a small business use AI?"]])
              ∅ UiApp.best_init
              (Sample.first_responder_chain
                 [HumanMessage "How can a small business use AI?"])
              eq_refl eq_refl eq_refl)
    as (messages & seen' & trace & Hrun & _); [lia | lia | eauto].
Qed.

Lemma sample_run_result :
  Sample.run = Session.Finished Sample.final_messages Sample.final_seen Sample.final_trace.
Proof.
  unfold Sample.final_messages, Sample.final_seen, Sample.final_trace.
  destruct sample_run_finishes as (messages & seen' & trace & Hrun).
  fold Sample.run in Hrun. now rewrite Hrun.
Qed.

Lemma run_reports_the_last_revision_witness :
  Session.invoke Sample.repr Sample.tavily Sample.validation_error Sample.first_responder_chain
    Sample.revisor_chain (UiApp.event_loop 2) 5 "How can a small business use AI?"
    ∅ UiApp.best_init
  = Session.Finished Sample.final_messages Sample.final_seen Sample.final_trace
  /\ exists h,
       Sample.final_messages = h ++ [Sample.revisor_chain h]
       /\ (∅ : gset string) ⊆ Sample.final_seen.
Proof.
  split; [exact sample_run_result|].
  destruct (run_reports_the_last_revision Sample.repr Sample.tavily
              Sample.validation_error Sample.first_responder_chain Sample.revisor_chain
              (UiApp.event_loop 2) 5 _ ∅ _ UiApp.best_init _ _ sample_run_result)
    as (h & Hm & _ & Hsub & _).
  exists h. split; [exact Hm | exact Hsub].
Defined.

(** X17: when a run ends with a tool-message count within the maximum and
    a non-empty latest answer, it ended by the no-improvement rule, and
    the answer it reports is the one that failed to improve: its score is
    not above the best score on record. *)
Theorem stopped_run_reports_a_non_improving_answer {E : Type} (repr : E -> string)
    (tavily_invoke : string -> E + option (list search_item)) (validation_error : E)
    (first_responder_chain revisor_chain : list message -> message)
    (max fuel : nat) (question : string) (seen seen' : gset string) (best : Q)
    (messages : list message) (trace : list (route * Q))
    (ans : option string) (refs : list string) :
  Session.invoke repr tavily_invoke validation_error first_responder_chain revisor_chain
    (UiApp.event_loop max) fuel question seen best
  = Session.Finished messages seen' trace ->
  (count_tool_visits messages <= max)%nat ->
  UiApp.extract_last_tool_answer messages UiApp.default_names = (ans, refs) ->
  PyStr.truthy ans = true ->
  exists best_last,
    last trace = Some (END, best_last)
    /\ UiApp.evaluate_answer ans refs (UiApp.extract_latest_queries_from_tools messages)
       <= best_last.
Proof.
  unfold Session.invoke. intros Hrun Hc He Ht.
  apply cycle_history in Hrun as (h & b_prev & b_last & Hm & _ & _ & Hlast & Hdec).
  exists b_last. split; [exact Hlast|].
  rewrite (ui_event_loop_scored _ _ _ _ _ Hc He Ht) in Hdec. cbv zeta in Hdec.
  destruct (Qle_bool _ b_prev) eqn:Hle; [|discriminate].
  injection Hdec as <-. now apply Qle_bool_iff.
Qed.

Lemma stopped_run_reports_a_non_improving_answer_witness :
  Session.invoke Sample.repr Sample.tavily Sample.validation_error Sample.first_responder_chain
    Sample.revisor_chain (UiApp.event_loop 2) 5 "How can a small business use AI?"
    ∅ UiApp.best_init
  = Session.Finished Sample.final_messages Sample.final_seen Sample.final_trace
  /\ (count_tool_visits Sample.final_messages <= 2)%nat
  /\ UiApp.extract_last_tool_answer Sample.final_messages UiApp.default_names
     = (Sample.sample_answer, Sample.sample_refs)
  /\ PyStr.truthy Sample.sample_answer = true
  /\ exists best_last,
       last Sample.final_trace = Some (END, best_last)
       /\ UiApp.evaluate_answer Sample.sample_answer Sample.sample_refs
            (UiApp.extract_latest_queries_from_tools Sample.final_messages)
          <= best_last.
Proof.
  assert (Hc : (count_tool_visits Sample.final_messages <= 2)%nat) by (vm_compute; lia).
  assert (He : UiApp.extract_last_tool_answer Sample.final_messages UiApp.default_names
               = (Sample.sample_answer, Sample.sample_refs)) by (vm_compute; reflexivity).
  split; [exact sample_run_result|]. split; [exact Hc|]. split; [exact He|].
  split; [reflexivity|].
  exact (stopped_run_reports_a_non_improving_answer Sample.repr Sample.tavily
           Sample.validation_error Sample.first_responder_chain Sample.revisor_chain
           2 5 _ ∅ _ UiApp.best_init _ _ _ _ sample_run_result Hc He eq_refl).
Defined.

(** ** A model that returns no structured answer *)

Lemma name_in_default_names (tc : tool_call) :
  name_in ReflexionAgent.default_names tc = name_in ExecuteTools.recognized tc.
Proof.
  unfold name_in. destruct (name tc) as [n|]; [|reflexivity]. simpl.
  now destruct (String.eqb n "ReviseAnswer"), (String.eqb n "AnswerQuestion").
Qed.

Lemma not_actionable_no_call (msg : message) :
  Session.actionable msg = false ->
  List.filter (name_in ReflexionAgent.default_names) (msg_tool_calls msg) = [].
Proof.
  unfold Session.actionable. intros H.
  induction (msg_tool_calls msg) as [|tc tcs IH]; [reflexivity|]. simpl in *.
  rewrite name_in_default_names.
  apply orb_false_iff in H as [-> H]. now apply IH.
Qed.

Lemma plain_history_facts (state : list message) :
  Forall (fun msg => is_tool_message msg = false /\ Session.actionable msg = false) state ->
  count_tool_visits state = 0%nat
  /\ ReflexionAgent.extract_last_tool_answer state ReflexionAgent.default_names = (None, [])
  /\ ExecuteTools.recognized_calls state = [].
Proof.
  intros Hall. split; [|split].
  - unfold count_tool_visits. induction Hall as [|msg state [Hm _] _ IH]; [reflexivity|].
    simpl. now rewrite Hm.
  - apply extract_answer_none. eapply Forall_impl; [exact Hall|].
    intros msg [_ H]. now apply not_actionable_no_call.
  - unfold ExecuteTools.recognized_calls.
    destruct (last state) as [msg|] eqn:Hlast; [|reflexivity].
    apply last_Some_elem_of in Hlast.
    apply (proj1 (Forall_forall _ _) Hall) in Hlast as [_ Hact].
    destruct msg as [c | tcs | c i]; try reflexivity.
    unfold Session.actionable in Hact. simpl in Hact.
    induction tcs as [|tc tcs IH]; [reflexivity|]. simpl in *.
    apply orb_false_iff in Hact as [-> Hact]. now apply IH.
Qed.

(** X18: on a history with no tool message and no recognised call (a
    model that answers in plain text), both controllers route back to
    [execute_tools] and keep their state, whatever the maximum and the
    best score, and [execute_tools] appends nothing: the tool-message
    count that the hard cap watches cannot grow. *)
Theorem plain_answers_make_no_progress {E : Type} (repr : E -> string)
    (tavily_invoke : string -> E + option (list search_item)) (validation_error : E)
    (state : list message) (max : nat) (best : Q) (g : ReflexionAgent.globals)
    (seen : gset string) :
  Forall (fun msg => is_tool_message msg = false /\ Session.actionable msg = false) state ->
  UiApp.event_loop max best state = (EXECUTE_TOOLS, best)
  /\ ReflexionAgent.event_loop g state = (EXECUTE_TOOLS, g)
  /\ ExecuteTools.execute_tools repr tavily_invoke validation_error state seen = (inr [], seen).
Proof.
  intros Hall. destruct (plain_history_facts state Hall) as (Hc & He & Hcalls).
  split; [|split].
  - apply (ui_event_loop_unscored max best state None []); [lia | exact He | reflexivity].
  - apply (agent_event_loop_unscored g state None []);
      [rewrite Hc; unfold ReflexionAgent.MAX_ITERATIONS; lia | exact He | reflexivity].
  - unfold ExecuteTools.recognized_calls in Hcalls. unfold ExecuteTools.execute_tools.
    destruct (last state) as [[c | [|tc tcs] | c i]|]; try reflexivity.
    now apply tool_call_loop_none.
Qed.

Lemma plain_answers_make_no_progress_witness :
  Forall (fun msg => is_tool_message msg = false /\ Session.actionable msg = false)
    [HumanMessage "How can a small business use AI?"; Sample.plain_chain []]
  /\ UiApp.event_loop 0 UiApp.best_init
       [HumanMessage "How can a small business use AI?"; Sample.plain_chain []]
     = (EXECUTE_TOOLS, UiApp.best_init).
Proof.
  assert (H : Forall (fun msg => is_tool_message msg = false
                                 /\ Session.actionable msg = false)
                [HumanMessage "How can a small business use AI?"; Sample.plain_chain []])
    by (repeat constructor).
  split; [exact H|].
  exact (proj1 (plain_answers_make_no_progress Sample.repr Sample.tavily
                  Sample.validation_error _ 0
                  UiApp.best_init ReflexionAgent.globals_at_invoke ∅ H)).
Defined.

Section PlainRun.

Context {E : Type}.
Variable repr : E -> string.
Variable tavily_invoke : string -> E + option (list search_item).
Variable validation_error : E.
Variable revisor_chain : list message -> message.
Context {B : Type}.
Variable decide : B -> list message -> route * B.
Hypothesis Hrev : forall history,
  is_tool_message (revisor_chain history) = false
  /\ Session.actionable (revisor_chain history) = false.
Hypothesis Hdecide : forall b state,
  Forall (fun msg => is_tool_message msg = false /\ Session.actionable msg = false) state ->
  decide b state = (EXECUTE_TOOLS, b).

Lemma plain_cycle_runs_out (fuel : nat) : forall state seen b,
  Forall (fun msg => is_tool_message msg = false /\ Session.actionable msg = false) state ->
  Session.cycle repr tavily_invoke validation_error revisor_chain decide fuel state seen b
  = Session.OutOfFuel.
Proof.
  induction fuel as [|fuel IH]; intros state seen b Hall; [reflexivity|]. simpl.
  destruct (plain_history_facts state Hall) as (_ & _ & Hcalls).
  assert (Hrun : ExecuteTools.execute_tools repr tavily_invoke validation_error state seen
                 = (inr [], seen)).
  { unfold ExecuteTools.recognized_calls in Hcalls. unfold ExecuteTools.execute_tools.
    destruct (last state) as [[c | [|tc tcs] | c i]|]; try reflexivity.
    now apply tool_call_loop_none. }
  rewrite Hrun, app_nil_r.
  assert (Hall' : Forall (fun msg => is_tool_message msg = false
                                     /\ Session.actionable msg = false)
                    (state ++ [revisor_chain state])).
  { apply Forall_app. split; [exact Hall|]. constructor; [apply Hrev | constructor]. }
  rewrite (Hdecide b _ Hall'), (IH _ _ _ Hall'). reflexivity.
Qed.

End PlainRun.

(** C3, refuted as stated: with a maximum of 0 and a model that answers
    in plain text, the run is still going after 100 passes, and no amount
    of fuel lets it finish: the executor adds no tool message, so the
    count that the cap watches stays at 0. *)
Lemma plain_run_outlasts_the_cap :
  Session.invoke Sample.repr Sample.tavily Sample.validation_error
    Sample.plain_chain Sample.plain_chain (UiApp.event_loop 0) 100
    "How can a small business use AI?" ∅ UiApp.best_init
  = Session.OutOfFuel
  /\ ~ exists fuel messages seen' trace,
         Session.invoke Sample.repr Sample.tavily Sample.validation_error
           Sample.plain_chain Sample.plain_chain (UiApp.event_loop 0) fuel
           "How can a small business use AI?" ∅ UiApp.best_init
         = Session.Finished messages seen' trace.
Proof.
  assert (Hout : forall fuel,
            Session.invoke Sample.repr Sample.tavily Sample.validation_error
              Sample.plain_chain Sample.plain_chain (UiApp.event_loop 0) fuel
              "How can a small business use AI?" ∅ UiApp.best_init
            = Session.OutOfFuel).
  { intros fuel. unfold Session.invoke. apply plain_cycle_runs_out.
    - intros history. split; reflexivity.
    - intros b state Hall. destruct (plain_history_facts state Hall) as (Hc & He & _).
      apply (ui_event_loop_unscored 0 b state None []); [lia | exact He | reflexivity].
    - repeat constructor. }
  split; [apply Hout|].
  intros (fuel & messages & seen' & trace & Hrun). rewrite Hout in Hrun. discriminate.
Qed.

(** X19: in the graph as it is wired, when both chains only ever return
    messages without a recognised call, no controller call ends the run:
    whatever the maximum, the run goes on for as long as the engine lets
    it. *)
Theorem run_without_structured_answers_never_ends {E : Type} (repr : E -> string)
    (tavily_invoke : string -> E + option (list search_item)) (validation_error : E)
    (first_responder_chain revisor_chain : list message -> message)
    (max fuel : nat) (question : string) (seen : gset string) (best : Q)
    (g : ReflexionAgent.globals) :
  (forall history, is_tool_message (first_responder_chain history) = false
                   /\ Session.actionable (first_responder_chain history) = false) ->
  (forall history, is_tool_message (revisor_chain history) = false
                   /\ Session.actionable (revisor_chain history) = false) ->
  Session.invoke repr tavily_invoke validation_error first_responder_chain revisor_chain
    (UiApp.event_loop max) fuel question seen best = Session.OutOfFuel
  /\ Session.invoke repr tavily_invoke validation_error first_responder_chain revisor_chain
       ReflexionAgent.event_loop fuel question seen g = Session.OutOfFuel.
Proof.
  intros Hdraft Hrev. unfold Session.invoke.
  assert (Hstart : Forall (fun msg => is_tool_message msg = false
                                      /\ Session.actionable msg = false)
                     ([HumanMessage question]
                      ++ [first_responder_chain [HumanMessage question]])).
  { constructor; [split; reflexivity|]. constructor; [apply Hdraft | constructor]. }
  split; apply plain_cycle_runs_out; try assumption.
  - intros b state Hall. destruct (plain_history_facts state Hall) as (Hc & He & _).
    apply (ui_event_loop_unscored max b state None []); [lia | exact He | reflexivity].
  - intros b state Hall. destruct (plain_history_facts state Hall) as (Hc & He & _).
    apply (agent_event_loop_unscored b state None []);
      [rewrite Hc; unfold ReflexionAgent.MAX_ITERATIONS; lia | exact He | reflexivity].
Qed.

Lemma run_without_structured_answers_never_ends_witness :
  (forall history, is_tool_message (Sample.plain_chain history) = false
                   /\ Session.actionable (Sample.plain_chain history) = false)
  /\ Session.invoke Sample.repr Sample.tavily Sample.validation_error
       Sample.plain_chain Sample.plain_chain
       (UiApp.event_loop 0) 100 "How can a small business use AI?" ∅ UiApp.best_init
     = Session.OutOfFuel.
Proof.
  assert (H : forall history, is_tool_message (Sample.plain_chain history) = false
                              /\ Session.actionable (Sample.plain_chain history) = false)
    by (intros; split; reflexivity).
  split; [exact H|].
  exact (proj1 (run_without_structured_answers_never_ends Sample.repr Sample.tavily
                  Sample.validation_error
                  Sample.plain_chain Sample.plain_chain 0 100 _ ∅ UiApp.best_init
                  ReflexionAgent.globals_at_invoke H H)).
Defined.

(** ** Printing and exporting the result *)

Lemma append_empty_r (a : string) : a +:+ EmptyString = a.
Proof.
  induction a as [|x a IH]; [reflexivity|].
  change (String x (a +:+ EmptyString) = String x a). now rewrite IH.
Qed.

Lemma join_bullets (sep x : string) (f : string -> string) (l : list string) :
  PyStr.join sep (x :: map f l ++ [sep])
  = x +:+ fold_right (fun r rest => sep +:+ f r +:+ rest) (sep +:+ sep) l.
Proof.
  revert x. induction l as [|r l IH]; intros x; [reflexivity|].
  change (PyStr.join sep (x :: map f (r :: l) ++ [sep]))
    with (x +:+ sep +:+ PyStr.join sep (f r :: map f l ++ [sep])).
  now rewrite IH.
Qed.

(** X20: the command-line printer and the Markdown export list the
    references under the same condition, namely when there are some and
    the answer does not contain the word [References]: then the printer
    prints the banner, the answer, a heading and each reference, and the
    export is the UTF-8 text of the title, prompt and answer followed by a
    heading and one bullet per reference, in order; otherwise both stop
    after the answer. *)
Theorem references_are_listed_alike (prompt : string) (messages : list message)
    (c : ascii) (rest : string) (refs : list string) :
  ReflexionAgent.extract_last_tool_answer messages ReflexionAgent.default_names
  = (Some (String c rest), refs) ->
  let text := String c rest in
  let listed := negb (PyStr.contains "References" text)
                && match refs with [] => false | _ => true end in
  ReflexionAgent.print_final messages
  = [PyStr.nl +:+ "=== Final Answer ===" +:+ PyStr.nl; text]
    ++ (if listed then (PyStr.nl +:+ "References:") :: refs else [])
  /\ UiApp.export_markdown prompt text refs
     = PyStr.utf8
         (("# Final Answer" +:+ PyStr.nl +:+ PyStr.nl +:+ "**Prompt:** " +:+ prompt
             +:+ PyStr.nl +:+ PyStr.nl +:+ text +:+ PyStr.nl)
          +:+ (if listed
               then PyStr.nl +:+ (PyStr.nl +:+ "## References" +:+ PyStr.nl)
                    +:+ fold_right (fun r rest => PyStr.nl +:+ ("- " +:+ r) +:+ rest)
                          (PyStr.nl +:+ PyStr.nl) refs
               else EmptyString)).
Proof.
  intros He text listed. split.
  - unfold ReflexionAgent.print_final. rewrite He. subst listed.
    change (PyStr.truthy (Some (String c rest))) with true. cbv iota. simpl default.
    fold text. destruct refs; [rewrite andb_false_r | rewrite !andb_true_r]; reflexivity.
  - unfold UiApp.export_markdown, UiApp.markdown_lines. subst listed. cbv zeta.
    fold text. f_equal.
    destruct refs as [|r refs].
    + rewrite andb_false_r. simpl. now rewrite append_empty_r.
    + rewrite andb_true_l, andb_true_r.
      destruct (negb (PyStr.contains "References" text));
        [|simpl; now rewrite append_empty_r].
      set (header := "# Final Answer" +:+ _).
      change (([header] ++ [PyStr.nl +:+ "## References" +:+ PyStr.nl])
              ++ map (fun r0 => "- " +:+ r0) (r :: refs) ++ [PyStr.nl])
        with (header :: (PyStr.nl +:+ "## References" +:+ PyStr.nl)
                :: map (fun r0 => "- " +:+ r0) (r :: refs) ++ [PyStr.nl]).
      change (PyStr.join PyStr.nl
                (header :: (PyStr.nl +:+ "## References" +:+ PyStr.nl)
                   :: map (fun r0 => "- " +:+ r0) (r :: refs) ++ [PyStr.nl]))
        with (header +:+ PyStr.nl
              +:+ PyStr.join PyStr.nl
                    ((PyStr.nl +:+ "## References" +:+ PyStr.nl)
                       :: map (fun r0 => "- " +:+ r0) (r :: refs) ++ [PyStr.nl])).
      rewrite join_bullets. now rewrite !append_assoc.
Qed.

Lemma references_are_listed_alike_witness :
  ReflexionAgent.extract_last_tool_answer Sample.revised_once ReflexionAgent.default_names
  = (Some (String "A" "I helps [1]"), Sample.sample_refs)
  /\ ReflexionAgent.print_final Sample.revised_once
     = [PyStr.nl +:+ "=== Final Answer ===" +:+ PyStr.nl; "AI helps [1]";
        PyStr.nl +:+ "References:"; "https://example.com/a"]%string.
Proof.
  split; [reflexivity|].
  exact (proj1 (references_are_listed_alike "p" Sample.revised_once "A" "I helps [1]"
                  Sample.sample_refs eq_refl)).
Defined.

(** ** Order of the mapping *)

Lemma query_loop_keys {E : Type} (repr : E -> string)
    (tavily_invoke : string -> E + option (list search_item)) (qs : list pyval) :
  forall d (seen : gset string) d' seen',
    ExecuteTools.query_loop repr tavily_invoke qs d seen = (inr d', seen') ->
    PyDict.keys d'
    = fold_left (fun acc k => if bool_decide (k ∈ acc) then acc else acc ++ [k])
        (ExecuteTools.cleaned qs) (PyDict.keys d).
Proof.
  induction qs as [|q qs IH]; intros d seen d' seen'; simpl.
  - now intros [= <- <-].
  - rewrite cleaned_cons.
    destruct (String.eqb (ExecuteTools._clean_query q) EmptyString); [apply IH|].
    destruct (search_query_urls repr tavily_invoke seen (ExecuteTools._clean_query q))
      as (v & seen1 & Hrun & _).
    unfold mbind, ExecuteTools.M_bind. rewrite Hrun. intros Hloop.
    rewrite (IH _ _ _ _ Hloop), dict_keys_set. reflexivity.
Qed.

(** X21: the mapping built for one call lists each cleaned, non-empty
    query once, in the order in which the queries first occur in
    [search_queries], whether their searches return or raise. *)
Theorem mapping_follows_query_order {E : Type} (repr : E -> string)
    (tavily_invoke : string -> E + option (list search_item))
    (search_queries : list pyval) (seen : gset string) :
  exists query_results seen',
    ExecuteTools.query_loop repr tavily_invoke search_queries [] seen
    = (inr query_results, seen')
    /\ PyDict.keys query_results
       = ExecuteTools.first_occurrences (ExecuteTools.cleaned search_queries).
Proof.
  destruct (query_loop_spec repr tavily_invoke seen search_queries [] seen)
    as (d' & seen' & Hloop & _); [reflexivity | |].
  { intros k' v H. inversion H. }
  exists d', seen'. split; [exact Hloop|].
  apply (query_loop_keys _ _ _ _ _ _ _ Hloop).
Qed.

(** ** The peak of the length fit *)

(** X22: with the references, the queries and the number of citations
    fixed, no answer scores higher than an answer of exactly 250 words. *)
Theorem answer_of_250_words_scores_highest (text text' : string)
    (refs queries_used : list string) :
  length (PyStr.split text) = 250%nat ->
  length (PyStr.findall_citations text') = length (PyStr.findall_citations text) ->
  UiApp.evaluate_answer (Some text') refs queries_used
  <= UiApp.evaluate_answer (Some text) refs queries_used.
Proof.
  intros Hwords Hcites. rewrite !ui_evaluate_answer_spec. unfold Spec.score.
  destruct text as [|c t]; [discriminate|].
  destruct text' as [|c' t'].
  - apply (spec_score_nonneg (Some (String c t)) refs queries_used).
  - unfold PyNum.len at 3 6. rewrite Hcites.
    repeat apply Qplus_le_compat; try apply Qle_refl.
    rewrite (length_fit_peak (String c t) Hwords).
    unfold Spec.length_fit. apply Q.max_lub; [discriminate|].
    apply Qle_trans with (30 - 0); [|discriminate]. unfold Qminus.
    apply Qplus_le_compat; [apply Qle_refl|]. apply Qopp_le_compat.
    apply Qmult_le_0_compat; [discriminate | apply Qabs_nonneg].
Qed.

Lemma answer_of_250_words_scores_highest_witness :
  length (PyStr.split (Sample.words 250)) = 250%nat
  /\ length (PyStr.findall_citations "AI helps")
     = length (PyStr.findall_citations (Sample.words 250))
  /\ UiApp.evaluate_answer (Some "AI helps"%string) Sample.sample_refs Sample.sample_queries
     <= UiApp.evaluate_answer (Some (Sample.words 250)) Sample.sample_refs
          Sample.sample_queries.
Proof.
  assert (Hw : length (PyStr.split (Sample.words 250)) = 250%nat)
    by (vm_compute; reflexivity).
  assert (Hc : length (PyStr.findall_citations "AI helps")
               = length (PyStr.findall_citations (Sample.words 250)))
    by (vm_compute; reflexivity).
  split; [exact Hw|]. split; [exact Hc|].
  exact (answer_of_250_words_scores_highest (Sample.words 250) "AI helps"
           Sample.sample_refs Sample.sample_queries Hw Hc).
Defined.
